(** * turtlesim_controller: the polygon controller of
      [scripts/turtlesim_controller.py]

    A shallow embedding of the class [TurtlesimController].  Python floats are
    IEEE 754 binary64 numbers and are modelled by Rocq's primitive [float]
    (the same format, with the same rounding); Python integers are [Z].  The
    instance attributes form a record that is threaded through a small
    state-and-exception monad, the publisher is the list of the messages it
    has been handed, and the one loop of the program runs on fuel.

    Of the libraries the script calls, [math.hypot] is a parameter of the
    model, and the calls of [rospy] that only log are left out.  The facts
    that involve the loop are proved for side counts below [2^53], where the
    conversion of an [int] to a [float] is exact; a ROS integer parameter has
    32 bits. *)

From Stdlib Require Import ZArith List Bool Lia.
From Stdlib Require Import Floats.
From Stdlib Require Uint63.
Import ListNotations.

Local Open Scope Z_scope.

(** ** Messages *)

(** [turtlesim/Pose]: five numbers, which reach Python as floats. *)
Module turtlesim_msg.
Record Pose : Set := mkPose {
  x : float;
  y : float;
  theta : float;
  linear_velocity : float;
  angular_velocity : float
}.
End turtlesim_msg.

(** [geometry_msgs/Twist]; [Twist()] has every field zero. *)
Module geometry_msgs.
Record Vector3 : Set := mkVector3 { x : float; y : float; z : float }.
Record Twist : Set := mkTwist { linear : Vector3; angular : Vector3 }.

Definition Vector3_0 : Vector3 := mkVector3 0 0 0.
Definition Twist_0 : Twist := mkTwist Vector3_0 Vector3_0.

(** [cmd.linear.x = v] and [cmd.angular.z = w]. *)
Definition set_linear_x (v : float) (cmd : Twist) : Twist :=
  mkTwist (mkVector3 v (y (linear cmd)) (z (linear cmd))) (angular cmd).
Definition set_angular_z (w : float) (cmd : Twist) : Twist :=
  mkTwist (linear cmd) (mkVector3 (x (angular cmd)) (y (angular cmd)) w).
End geometry_msgs.

Import turtlesim_msg geometry_msgs.

(** The velocity command of the specification, [{linear, angular}], as the
    [Twist] the controller publishes for it. *)
Definition VelocityCommand (lin ang : float) : Twist :=
  set_angular_z ang (set_linear_x lin Twist_0).

(** ** The dataclasses and the controller object *)

Record Param : Set := mkParam {
  num_of_sides : Z;
  length_of_side : float;
  turn_direction_th : float
}.

Record Turtle : Set := mkTurtle {
  pose : option Pose;
  velocity : float;
  yawrate : float
}.

(** The attributes of a [TurtlesimController].  [_cmd_vel_pub] is the
    publisher on [/turtle1/cmd_vel], kept as the messages published so far,
    oldest first. *)
Record TurtlesimController : Set := mkController {
  _param : Param;
  _turtle : Turtle;
  _prev_turn_pose : option Pose;
  _turn_count : Z;
  _cmd_vel_pub : list Twist
}.

Definition set_pose (p : option Pose) (self : TurtlesimController) :=
  mkController (_param self)
    (mkTurtle p (velocity (_turtle self)) (yawrate (_turtle self)))
    (_prev_turn_pose self) (_turn_count self) (_cmd_vel_pub self).

Definition set_prev_turn_pose (p : option Pose) (self : TurtlesimController) :=
  mkController (_param self) (_turtle self) p (_turn_count self)
    (_cmd_vel_pub self).

Definition set_turn_count (c : Z) (self : TurtlesimController) :=
  mkController (_param self) (_turtle self) (_prev_turn_pose self) c
    (_cmd_vel_pub self).

Definition push_cmd_vel (cmd : Twist) (self : TurtlesimController) :=
  mkController (_param self) (_turtle self) (_prev_turn_pose self)
    (_turn_count self) (_cmd_vel_pub self ++ [cmd]).

(** ** Effects: state, exceptions, fuel *)

Inductive exn : Set := OverflowError | ZeroDivisionError | AttributeError.

(** What running a method gives: a value, a Python exception, or no answer
    within the fuel given to the loop. *)
Inductive result (A : Type) : Type :=
| Ok (a : A)
| Raise (e : exn)
| OutOfFuel.
Arguments Ok {A} a.
Arguments Raise {A} e.
Arguments OutOfFuel {A}.

(** A method: from the object to a result and the object as the method left
    it (an exception does not undo the assignments made before it). *)
Definition M (A : Type) : Type := TurtlesimController -> result A * TurtlesimController.

Definition ret {A} (a : A) : M A := fun self => (Ok a, self).

Definition bind {A B} (m : M A) (k : A -> M B) : M B :=
  fun self =>
    match m self with
    | (Ok a, self') => k a self'
    | (Raise e, self') => (Raise e, self')
    | (OutOfFuel, self') => (OutOfFuel, self')
    end.

Definition raise {A} (e : exn) : M A := fun self => (Raise e, self).
Definition get : M TurtlesimController := fun self => (Ok self, self).
Definition modify (f : TurtlesimController -> TurtlesimController) : M unit :=
  fun self => (Ok tt, f self).
Definition lift {A} (r : result A) : M A := fun self => (r, self).

Declare Scope method_scope.
Delimit Scope method_scope with method.
Notation "x <- m ;; k" := (bind m (fun x => k))
  (at level 61, m at next level, right associativity) : method_scope.
Notation "m ;; k" := (bind m (fun _ => k))
  (at level 61, right associativity) : method_scope.
Local Open Scope method_scope.

(** ** Python arithmetic on floats *)

(** [math.pi]. *)
Definition math_pi : float := 0x1.921fb54442d18p+1%float.

(** [float(n)] for an [int], as the mixed operators [float / int] and
    [float * int] apply it: the nearest binary64 number, ties to even;
    [OverflowError] when that is out of range. *)
Definition float_of_int (n : Z) : result float :=
  match binary_normalize prec emax n 0 false with
  | S754_infinity _ => Raise OverflowError
  | sf => Ok (SF2Prim sf)
  end.

(** [a / b] on floats: [ZeroDivisionError] when [b] is zero. *)
Definition truediv (a b : float) : result float :=
  if is_zero b then Raise ZeroDivisionError else Ok (a / b)%float.

(** [a / n] and [a * n] with [n] an [int]. *)
Definition truediv_int (a : float) (n : Z) : result float :=
  match float_of_int n with
  | Ok b => truediv a b
  | Raise e => Raise e
  | OutOfFuel => OutOfFuel
  end.

Definition mul_int (a : float) (n : Z) : result float :=
  match float_of_int n with
  | Ok b => Ok (a * b)%float
  | Raise e => Raise e
  | OutOfFuel => OutOfFuel
  end.

(** The loop of [_calc_target_direction]:
    [while math.pi < target_direction: target_direction -= 2.0 * math.pi].
    [fuel] bounds the number of times the body may run. *)
Fixpoint while_pi_lt (fuel : nat) (target_direction : float) : result float :=
  if (math_pi <? target_direction)%float then
    match fuel with
    | O => OutOfFuel
    | S fuel' => while_pi_lt fuel' (target_direction - 2.0 * math_pi)%float
    end
  else Ok target_direction.

(** ** The methods of [TurtlesimController] *)

(** The private parameters of the node as [rospy.get_param] finds them:
    [None] where the parameter is not set. *)
Record ParamServer : Set := mkParamServer {
  p_num_of_sides : option Z;
  p_length_of_side : option float;
  p_turn_direction_th : option float;
  p_velocity : option float;
  p_yawrate : option float
}.

Definition get_param {A} (v : option A) (default : A) : A :=
  match v with Some a => a | None => default end.

(** The literals [0.01] and [0.3] as Python reads them: the nearest binary64
    numbers. *)
Definition float_0_01 : float := 0x1.47ae147ae147bp-7%float.
Definition float_0_3 : float := 0x1.3333333333333p-2%float.

(** [__init__]: [inr] the object constructed, [inl] an exception.  The code
    reads the five parameters, with their defaults, and checks none of
    them; it sets [_prev_turn_pose] to [None] and [_turn_count] to 0, and
    creates the publisher and the subscriber. *)
Definition __init__ (ps : ParamServer) : exn + TurtlesimController :=
  inr (mkController
         (mkParam (get_param (p_num_of_sides ps) 3)
                  (get_param (p_length_of_side ps) 1.0%float)
                  (get_param (p_turn_direction_th ps) float_0_01))
         (mkTurtle None
                   (get_param (p_velocity ps) 0.5%float)
                   (get_param (p_yawrate ps) float_0_3))
         None 0 []).

Section Controller.

(** [math.hypot], of the Python library. *)
Variable hypot : float -> float -> float.

Definition _cmd_vel_pub_publish (cmd_vel : Twist) : M unit :=
  modify (push_cmd_vel cmd_vel).

Definition _can_move : M bool :=
  self <- get ;;
  ret (_turn_count self <? num_of_sides (_param self)).

(** An attribute of a pose that may be [None]. *)
Definition attr (f : Pose -> float) (p : option Pose) : M float :=
  match p with
  | Some p => ret (f p)
  | None => raise AttributeError
  end.

Definition _calc_distance (pose1 pose2 : option Pose) : M float :=
  x1 <- attr turtlesim_msg.x pose1 ;;
  x2 <- attr turtlesim_msg.x pose2 ;;
  y1 <- attr turtlesim_msg.y pose1 ;;
  y2 <- attr turtlesim_msg.y pose2 ;;
  ret (hypot (x1 - x2) (y1 - y2)).

Definition _get_cmd_vel_to_go_straight : M Twist :=
  self <- get ;;
  let cmd_vel := Twist_0 in
  ret (set_linear_x (velocity (_turtle self)) cmd_vel).

Definition _get_cmd_vel_to_turn_in_place : M Twist :=
  self <- get ;;
  let cmd_vel := Twist_0 in
  ret (set_angular_z (yawrate (_turtle self)) cmd_vel).

(** The arguments [pose] and [turn_count] are not used by the body, which
    reads [self._turn_count]. *)
Definition _calc_target_direction (fuel : nat)
    (pose : option Pose) (turn_count : Z) : M float :=
  self <- get ;;
  target_direction_base <-
    lift (truediv_int (2.0 * math_pi) (num_of_sides (_param self))) ;;
  target_direction <-
    lift (mul_int target_direction_base (_turn_count self + 1)) ;;
  lift (while_pi_lt fuel target_direction).

(** [a and b] evaluates [a] first, and [b] only when [a] is true. *)
Definition _can_turn (fuel : nat) : M bool :=
  self <- get ;;
  target <- _calc_target_direction fuel (pose (_turtle self)) (_turn_count self) ;;
  th <- attr turtlesim_msg.theta (pose (_turtle self)) ;;
  if (turn_direction_th (_param self) <? abs (target - th))%float
  then ret (_turn_count self <? num_of_sides (_param self) - 1)
  else ret false.

(** The calls of [rospy.loginfo] and [rospy.logwarn] only print; their
    arguments are evaluated all the same, which matters for the one that
    calls [_calc_target_direction] again. *)
Definition _set_cmd_vel (fuel : nat) : M unit :=
  let cmd_vel := Twist_0 in
  can_move <- _can_move ;;
  if negb can_move then
    _cmd_vel_pub_publish cmd_vel
  else
    self <- get ;;
    match _prev_turn_pose self with
    | None => modify (set_prev_turn_pose (pose (_turtle self)))
    | Some _ => ret tt
    end ;;
    self <- get ;;
    distance <- _calc_distance (_prev_turn_pose self) (pose (_turtle self)) ;;
    cmd_vel <-
      (if (distance <? length_of_side (_param self))%float then
         _get_cmd_vel_to_go_straight
       else
         can_turn <- _can_turn fuel ;;
         if can_turn then
           target <- _calc_target_direction fuel (pose (_turtle self))
                       (_turn_count self) ;;
           th <- attr turtlesim_msg.theta (pose (_turtle self)) ;;
           let diff := abs (target - th) in
           _get_cmd_vel_to_turn_in_place
         else
           modify (fun self => set_turn_count (_turn_count self + 1) self) ;;
           modify (set_prev_turn_pose None) ;;
           ret cmd_vel) ;;
    _cmd_vel_pub_publish cmd_vel.

Definition _pose_callback (fuel : nat) (msg : Pose) : M unit :=
  modify (set_pose (Some msg)) ;;
  _set_cmd_vel fuel.


(** [process]: [rospy.spin()] hands every message received to
    [_pose_callback], in the order received; an exception raised by a
    callback is logged by rospy and the next message is handled on the object
    as the failed call left it. *)
Fixpoint process (fuel : nat) (msgs : list Pose) (self : TurtlesimController)
  : TurtlesimController :=
  match msgs with
  | [] => self
  | msg :: msgs' => process fuel msgs' (snd (_pose_callback fuel msg self))
  end.

(** The states a run can be in: the constructed object, and what a callback
    leaves of a state of the run, whatever it returned. *)
Inductive reachable (ps : ParamServer) : TurtlesimController -> Prop :=
| reachable_init (self : TurtlesimController) :
    __init__ ps = inr self -> reachable ps self
| reachable_callback (fuel : nat) (msg : Pose) (self : TurtlesimController) :
    reachable ps self ->
    reachable ps (snd (_pose_callback fuel msg self)).

(** The pose the current side is measured from during an update: the one
    recorded, or the pose of the update when none is. *)
Definition reference_pose (self : TurtlesimController) (msg : Pose) : Pose :=
  match _prev_turn_pose self with
  | Some p => p
  | None => msg
  end.

Definition distance (pose1 pose2 : Pose) : float :=
  hypot (turtlesim_msg.x pose1 - turtlesim_msg.x pose2)
        (turtlesim_msg.y pose1 - turtlesim_msg.y pose2).

End Controller.

(** ** Notions of the specification *)

(** The state at the start of the body of [_set_cmd_vel] for a message, with
    the reference pose [ref] in place. *)
Definition at_update (ref msg : Pose) (self : TurtlesimController) :=
  set_prev_turn_pose (Some ref) (set_pose (Some msg) self).

(** What [_calc_target_direction] computes, as a function of the two numbers
    it reads. *)
Definition target_direction (fuel : nat) (n turn_count : Z) : result float :=
  match truediv_int (2.0 * math_pi) n with
  | Ok base =>
      match mul_int base (turn_count + 1) with
      | Ok t => while_pi_lt fuel t
      | Raise e => Raise e
      | OutOfFuel => OutOfFuel
      end
  | Raise e => Raise e
  | OutOfFuel => OutOfFuel
  end.

(** "[2 pi] repeatedly subtracted while the value exceeds [pi]", in the words
    of the specification: [wraps_down t t'] when [t'] is what is left of [t]. *)
Inductive wraps_down : float -> float -> Prop :=
| wraps_done (t : float) :
    (math_pi <? t)%float = false -> wraps_down t t
| wraps_step (t t' : float) :
    (math_pi <? t)%float = true ->
    wraps_down (t - 2.0 * math_pi)%float t' ->
    wraps_down t t'.

(** [t] lies in the interval (-pi, pi] and the loop has nothing left to do
    on it. *)
Definition in_range (t : float) : Prop :=
  (math_pi <? t)%float = false /\
  (t <=? math_pi)%float = true /\
  (- math_pi <? t)%float = true.

(** The configurations the specification calls valid. *)
Definition valid_config (p : Param) : Prop :=
  3 <= num_of_sides p /\
  (0 <? length_of_side p)%float = true /\
  (0 <? turn_direction_th p)%float = true.


(** The configuration [__init__] reads from the parameter server. *)
Definition config_of (ps : ParamServer) : Param :=
  mkParam (get_param (p_num_of_sides ps) 3)
          (get_param (p_length_of_side ps) 1.0%float)
          (get_param (p_turn_direction_th ps) float_0_01).


(** A pose of finite coordinates. *)
Definition finite_pose (p : Pose) : Prop :=
  is_finite (turtlesim_msg.x p) = true /\ is_finite (turtlesim_msg.y p) = true.

(** The three commands of the controller. *)
Definition command_of (self : TurtlesimController) (cmd : Twist) : Prop :=
  cmd = VelocityCommand 0 0 \/
  cmd = VelocityCommand (velocity (_turtle self)) 0 \/
  cmd = VelocityCommand 0 (yawrate (_turtle self)).

(** ** Values of binary64 numbers *)

(** The mantissa of [math.pi], which is [mant_pi * 2^-51]. *)
Definition mant_pi : positive := 7074237752028440.

(** The value of the number of mantissa [m] and exponent [e], in units of
    [2^-1074], the smallest positive number of the format. *)
Definition Fval (m : positive) (e : Z) : Z := Zpos m * 2 ^ (e + 1074).

(** The float [f] is the integer [n], exactly: [f] is the number of a
    mantissa [m] and an exponent [- u] with [m * 2^-u = n]. *)
Definition exact_float (n : Z) (f : float) : Prop :=
  exists (m : positive) (u : Z),
    0 <= u /\ Prim2SF f = S754_finite false m (- u) /\ Zpos m = n * 2 ^ u.

(** A stand-in for [math.hypot], to run the examples on.  It is not
    [math.hypot]: the squares can overflow, underflow or round where the
    library function does not, and an infinite argument beside a NaN gives
    NaN here and infinity there.  The examples call it on small exact
    differences only, where the two agree; the theorems are about any
    [hypot]. *)
Definition hypot_sqrt (a b : float) : float := sqrt (a * a + b * b).

(** ** Examples to run the controller on *)

(** The controller of the default parameters: a triangle of side 1. *)
Definition triangle : TurtlesimController :=
  mkController (mkParam 3 1.0 float_0_01) (mkTurtle None 0.5 float_0_3) None 0 [].

Definition no_params : ParamServer := mkParamServer None None None None None.


Definition pose_at (a b th : float) : Pose := turtlesim_msg.mkPose a b th 0 0.

(** The triangle on its way along a side that started at the origin. *)
Definition on_side (turn_count : Z) : TurtlesimController :=
  mkController (mkParam 3 1.0 float_0_01)
    (mkTurtle (Some (pose_at 0.5 0 0)) 0.5 float_0_3)
    (Some (pose_at 0 0 0)) turn_count [VelocityCommand 0.5 0].

(** The first target direction of the triangle, [2 pi / 3]. *)
Definition heading_1 : float := (2.0 * math_pi / 3)%float.

(** A run around the triangle: along each side, and at the first two corners
    a pose on the old heading, one on the new heading, and one more. *)
Definition tour : list Pose :=
  [pose_at 0 0 0; pose_at 0.5 0 0; pose_at 1 0 0;
   pose_at 1 0 heading_1; pose_at 1 0 heading_1;
   pose_at 0.5 1 heading_1; pose_at 0.5 1 (- heading_1); pose_at 0.5 1 (- heading_1);
   pose_at 0 0 (- heading_1); pose_at 0 0 (- heading_1)].

(** ** Notions for the properties of runs *)

(** Two poses that differ at most in the velocities they report. *)
Definition same_place (p q : Pose) : Prop :=
  turtlesim_msg.x p = turtlesim_msg.x q /\
  turtlesim_msg.y p = turtlesim_msg.y q /\
  theta p = theta q.

Definition same_place_opt (p q : option Pose) : Prop :=
  match p, q with
  | Some p, Some q => same_place p q
  | None, None => True
  | _, _ => False
  end.

(** Two controllers that differ at most in the velocities of the poses they
    hold and in the latest pose. *)
Definition same_course (s1 s2 : TurtlesimController) : Prop :=
  _param s1 = _param s2 /\
  velocity (_turtle s1) = velocity (_turtle s2) /\
  yawrate (_turtle s1) = yawrate (_turtle s2) /\
  same_place_opt (_prev_turn_pose s1) (_prev_turn_pose s2) /\
  _turn_count s1 = _turn_count s2 /\
  _cmd_vel_pub s1 = _cmd_vel_pub s2.

(** Twice the corners done, plus one when a side is under way. *)
Definition progress (self : TurtlesimController) : Z :=
  2 * _turn_count self
  + match _prev_turn_pose self with Some _ => 1 | None => 0 end.

(** A polygon of more sides than a float can count. *)
Definition huge_polygon : TurtlesimController :=
  mkController (mkParam (2 ^ 1024) 1.0 float_0_01) (mkTurtle None 0.5 float_0_3)
    (Some (pose_at 0 0 0)) 0 [].

(** The triangle with a negative threshold. *)
Definition never_satisfied : TurtlesimController :=
  mkController (mkParam 3 1.0 (-0.5)) (mkTurtle None 0.5 float_0_3)
    (Some (pose_at 0 0 0)) 0 [].

(** Reading the fields of a state written with the setters. *)
Ltac fields :=
  unfold at_update, push_cmd_vel, set_prev_turn_pose, set_turn_count, set_pose;
  cbn [snd fst _param _turtle _prev_turn_pose _turn_count _cmd_vel_pub
       pose velocity yawrate].

(** * Facts *)

(** ** Binary64 arithmetic

    What the proofs need of the arithmetic of the format, from its
    specification [SpecFloat]: the number of digits of a mantissa, the
    rounding step on long and on short mantissas, the order on valid numbers,
    and from these the three operations of [_calc_target_direction]. *)

(** *** Powers of two and the digits of a mantissa *)

Lemma pow2_split (a b : Z) : 0 <= a -> 0 <= b -> 2 ^ (a + b) = 2 ^ a * 2 ^ b.
Proof. intros. apply Z.pow_add_r; lia. Qed.

Lemma pow2_xI (p : positive) : 2 ^ Zpos p~1 = 2 * (2 ^ Zpos p * 2 ^ Zpos p).
Proof.
  replace (Zpos p~1) with (1 + (Zpos p + Zpos p)) by lia.
  rewrite !Z.pow_add_r by lia. reflexivity.
Qed.

Lemma pow2_xO (p : positive) : 2 ^ Zpos p~0 = 2 ^ Zpos p * 2 ^ Zpos p.
Proof.
  replace (Zpos p~0) with (Zpos p + Zpos p) by lia.
  rewrite !Z.pow_add_r by lia. reflexivity.
Qed.

Lemma digits2_pos_bounds (m : positive) :
  2 ^ (Zpos (digits2_pos m) - 1) <= Zpos m < 2 ^ Zpos (digits2_pos m).
Proof.
  induction m as [m IH | m IH | ]; cbn [digits2_pos].
  - rewrite Pos2Z.inj_succ.
    replace (Z.succ (Zpos (digits2_pos m)) - 1) with (Z.succ (Zpos (digits2_pos m) - 1)) by lia.
    rewrite !Z.pow_succ_r by lia. lia.
  - rewrite Pos2Z.inj_succ.
    replace (Z.succ (Zpos (digits2_pos m)) - 1) with (Z.succ (Zpos (digits2_pos m) - 1)) by lia.
    rewrite !Z.pow_succ_r by lia. lia.
  - cbn. lia.
Qed.

Lemma digits2_pos_unique (m : positive) (d : Z) :
  2 ^ (d - 1) <= Zpos m < 2 ^ d -> Zpos (digits2_pos m) = d.
Proof.
  intros [Hlo Hhi].
  pose proof (digits2_pos_bounds m) as [Hlo' Hhi'].
  assert (0 < d).
  { destruct (Z.ltb_spec 0 d); auto.
    assert (2 ^ d <= 2 ^ 0) by (apply Z.pow_le_mono_r; lia).
    change (2 ^ 0) with 1 in *. lia. }
  destruct (Z.lt_trichotomy (Zpos (digits2_pos m)) d) as [Hlt | [Heq | Hgt]]; auto.
  - assert (2 ^ Zpos (digits2_pos m) <= 2 ^ (d - 1)) by (apply Z.pow_le_mono_r; lia). lia.
  - assert (2 ^ d <= 2 ^ (Zpos (digits2_pos m) - 1)) by (apply Z.pow_le_mono_r; lia). lia.
Qed.

Lemma digits_le (p : positive) (d : Z) : Zpos p < 2 ^ d -> Zpos (digits2_pos p) <= d.
Proof.
  intros H. pose proof (digits2_pos_bounds p) as [Hlo _].
  destruct (Z.leb_spec (Zpos (digits2_pos p)) d) as [ | Hgt]; auto.
  assert (2 ^ d <= 2 ^ (Zpos (digits2_pos p) - 1)) by (apply Z.pow_le_mono_r; lia).
  lia.
Qed.

Lemma digits_ge (p : positive) (d : Z) : 0 <= d -> 2 ^ d <= Zpos p -> d + 1 <= Zpos (digits2_pos p).
Proof.
  intros Hd H. pose proof (digits2_pos_bounds p) as [_ Hhi].
  destruct (Z.leb_spec (d + 1) (Zpos (digits2_pos p))) as [ | Hlt]; auto.
  assert (2 ^ Zpos (digits2_pos p) <= 2 ^ d) by (apply Z.pow_le_mono_r; lia).
  lia.
Qed.

Lemma mant_53 (m : positive) : Zpos (digits2_pos m) = 53 -> 2 ^ 52 <= Zpos m < 2 ^ 53.
Proof. intros H. pose proof (digits2_pos_bounds m) as B. rewrite H in B. exact B. Qed.

Lemma iter_xO_spec (p m : positive) :
  Zpos (Pos.iter xO m p) = Zpos m * 2 ^ Zpos p.
Proof.
  revert m. induction p using Pos.peano_ind; intros m.
  - rewrite Pos.iter_succ_r || cbn. cbn. lia.
  - rewrite Pos.iter_succ, Pos2Z.inj_succ, Z.pow_succ_r by lia.
    rewrite Pos2Z.inj_xO, IHp. lia.
Qed.

Lemma div_pow2_digits (m : positive) :
  53 <= Zpos (digits2_pos m) ->
  2 ^ 52 <= Zpos m / 2 ^ (Zpos (digits2_pos m) - 53) < 2 ^ 53.
Proof.
  intros Hd. pose proof (digits2_pos_bounds m) as [Hlo Hhi].
  set (d := Zpos (digits2_pos m)) in *.
  assert (Hp : 0 < 2 ^ (d - 53)) by (apply Z.pow_pos_nonneg; lia).
  assert (E1 : 2 ^ (d - 1) = 2 ^ 52 * 2 ^ (d - 53))
    by (rewrite <- Z.pow_add_r by lia; f_equal; lia).
  assert (E2 : 2 ^ d = 2 ^ 53 * 2 ^ (d - 53))
    by (rewrite <- Z.pow_add_r by lia; f_equal; lia).
  rewrite E1 in Hlo. rewrite E2 in Hhi.
  split.
  - apply Z.div_le_lower_bound; lia.
  - apply Z.div_lt_upper_bound; lia.
Qed.

(** *** Shifting a mantissa to the right *)

Lemma shr_1_m (r : shr_record) :
  0 <= shr_m r -> shr_m (shr_1 r) = shr_m r / 2.
Proof.
  destruct r as [m rb sb]; unfold shr_m at 1 3; intros Hm.
  assert (E : shr_m (shr_1 {| shr_m := m; shr_r := rb; shr_s := sb |}) = Z.div2 m).
  { destruct m as [ | [p | p | ] | p]; reflexivity || lia. }
  rewrite E, Z.div2_div. reflexivity.
Qed.

Lemma iter_shr_1_m (p : positive) : forall r,
  0 <= shr_m r -> shr_m (iter_pos shr_1 p r) = shr_m r / 2 ^ Zpos p.
Proof.
  induction p as [p IH | p IH | ]; intros r Hr; cbn [iter_pos].
  - assert (H1 : 0 <= shr_m (shr_1 r)) by (rewrite shr_1_m by lia; apply Z.div_pos; lia).
    assert (H2 : 0 <= shr_m (iter_pos shr_1 p (shr_1 r)))
      by (rewrite IH by lia; apply Z.div_pos; lia).
    rewrite IH, IH, shr_1_m by lia.
    rewrite !Z.div_div by lia.
    rewrite pow2_xI. reflexivity.
  - assert (H2 : 0 <= shr_m (iter_pos shr_1 p r))
      by (rewrite IH by lia; apply Z.div_pos; lia).
    rewrite IH, IH by lia.
    rewrite !Z.div_div by lia.
    rewrite pow2_xO. reflexivity.
  - rewrite shr_1_m by lia. reflexivity.
Qed.

Lemma shr_record_of_loc_m m l : shr_m (shr_record_of_loc m l) = m.
Proof. destruct l as [ | [ | | ]]; reflexivity. Qed.

Lemma fexp_normal (e : Z) : -1021 <= e -> fexp prec emax e = e - 53.
Proof. unfold fexp, SpecFloat.emin, prec, emax. lia. Qed.

Lemma shr_fexp_m (m : positive) (e : Z) (l : location) :
  53 <= Zpos (digits2_pos m) -> -1074 <= e ->
  exists r,
    shr_fexp prec emax (Zpos m) e l = (r, e + (Zpos (digits2_pos m) - 53)) /\
    shr_m r = Zpos m / 2 ^ (Zpos (digits2_pos m) - 53).
Proof.
  intros Hd He. unfold shr_fexp. cbn [Zdigits2].
  rewrite fexp_normal by lia.
  replace (Zpos (digits2_pos m) + e - 53 - e) with (Zpos (digits2_pos m) - 53) by lia.
  destruct (Zpos (digits2_pos m) - 53) as [ | p | p] eqn:En; try lia.
  - eexists; split; [cbn [shr]; rewrite Z.add_0_r; reflexivity | ].
    rewrite shr_record_of_loc_m. change (2 ^ 0) with 1. now rewrite Z.div_1_r.
  - eexists; split; [cbn [shr]; reflexivity | ].
    rewrite iter_shr_1_m; rewrite shr_record_of_loc_m; [reflexivity | lia].
Qed.

Lemma round_nearest_even_cases m l :
  round_nearest_even m l = m \/ round_nearest_even m l = m + 1.
Proof.
  destruct l as [ | [ | | ]]; cbn; auto. destruct (Z.even m); auto.
Qed.

(** *** The rounding step *)

Lemma bounded_inv (m : positive) (e : Z) :
  bounded prec emax m e = true ->
  -1074 <= e <= 971 /\ Zpos (digits2_pos m) <= 53 /\
  (-1074 < e -> Zpos (digits2_pos m) = 53).
Proof.
  unfold bounded, canonical_mantissa, fexp, SpecFloat.emin, prec, emax.
  intros H. apply andb_prop in H as [H1 H2].
  apply Z.eqb_eq in H1. apply Z.leb_le in H2. lia.
Qed.

Lemma bounded_normal (m : positive) (e : Z) :
  Zpos (digits2_pos m) = 53 -> -1074 <= e <= 971 -> bounded prec emax m e = true.
Proof.
  intros Hd He. unfold bounded, canonical_mantissa, fexp, SpecFloat.emin, prec, emax.
  rewrite Hd. apply andb_true_intro. split; [apply Z.eqb_eq | apply Z.leb_le]; lia.
Qed.

(** The rounding step on a mantissa of at least 53 digits. *)
Lemma binary_round_aux_bound (s : bool) (m : positive) (e : Z) (l : location) :
  53 <= Zpos (digits2_pos m) -> -1074 <= e -> Zpos (digits2_pos m) + e <= 1023 ->
  exists m' e',
    binary_round_aux prec emax s (Zpos m) e l = S754_finite s m' e' /\
    bounded prec emax m' e' = true /\
    Zpos (digits2_pos m') = 53 /\
    e + (Zpos (digits2_pos m) - 53) <= e' <= e + (Zpos (digits2_pos m) - 53) + 1 /\
    Zpos m' * 2 ^ (e' - e) <= Zpos m + 2 ^ (Zpos (digits2_pos m) - 53).
Proof.
  intros Hd He Hmax.
  destruct (shr_fexp_m m e l Hd He) as (r & Er & Hr).
  pose proof (div_pow2_digits m Hd) as Hq.
  pose proof (digits2_pos_bounds m) as [Hlo Hhi].
  set (n := Zpos (digits2_pos m) - 53) in *.
  assert (Hn : 0 <= n) by lia.
  assert (Hp : 0 < 2 ^ n) by (apply Z.pow_pos_nonneg; lia).
  assert (Hm1 : shr_m r * 2 ^ n <= Zpos m).
  { rewrite Hr, Z.mul_comm. apply Z.mul_div_le. lia. }
  unfold binary_round_aux. rewrite Er.
  set (m2 := round_nearest_even (shr_m r) (loc_of_shr_record r)).
  assert (Hm2 : shr_m r <= m2 <= shr_m r + 1).
  { destruct (round_nearest_even_cases (shr_m r) (loc_of_shr_record r)); subst m2; lia. }
  rewrite <- Hr in Hq.
  destruct (Z.eq_dec m2 (2 ^ 53)) as [E53 | N53].
  - (* the mantissa carried over to 2^53 *)
    rewrite E53. change (2 ^ 53) with (Zpos (2 ^ 53)%positive).
    unfold shr_fexp. cbn [Zdigits2].
    change (Zpos (digits2_pos (2 ^ 53))) with 54.
    rewrite fexp_normal by lia.
    replace (54 + (e + n) - 53 - (e + n)) with 1 by lia.
    cbn [shr shr_record_of_loc iter_pos shr_1 shr_m].
    assert (Hle : (e + n + 1 <=? emax - prec) = true) by (apply Z.leb_le; unfold emax, prec; lia).
    rewrite Hle.
    exists (2 ^ 52)%positive, (e + n + 1). split; [reflexivity | ].
    split.
    { unfold bounded, canonical_mantissa.
      change (Zpos (digits2_pos (2 ^ 52))) with 53.
      rewrite fexp_normal by lia. rewrite Hle.
      replace (53 + (e + n + 1) - 53) with (e + n + 1) by lia.
      now rewrite Z.eqb_refl. }
    split; [reflexivity | ]. split; [lia | ].
    replace (e + n + 1 - e) with (1 + n) by lia.
    rewrite Z.pow_add_r by lia.
    assert (Hx : (shr_m r + 1) * 2 ^ n <= Zpos m + 2 ^ n) by lia.
    assert (Hy : 2 ^ 53 * 2 ^ n <= (shr_m r + 1) * 2 ^ n)
      by (apply Z.mul_le_mono_nonneg_r; lia).
    change (Zpos (2 ^ 52) * (2 ^ 1 * 2 ^ n)) with (2 ^ 52 * (2 * 2 ^ n)).
    replace (2 ^ 52 * (2 * 2 ^ n)) with (2 ^ 53 * 2 ^ n) by (change (2 ^ 53) with (2 ^ 52 * 2); ring).
    lia.
  - assert (Hm2' : 2 ^ 52 <= m2 < 2 ^ 53) by lia.
    destruct m2 as [ | p2 | p2] eqn:Em2; try lia.
    assert (Hd2 : Zpos (digits2_pos p2) = 53) by (apply digits2_pos_unique; exact Hm2').
    unfold shr_fexp. cbn [Zdigits2]. rewrite Hd2.
    rewrite fexp_normal by lia.
    replace (53 + (e + n) - 53 - (e + n)) with 0 by lia.
    cbn [shr shr_record_of_loc shr_m].
    assert (Hle : (e + n <=? emax - prec) = true) by (apply Z.leb_le; unfold emax, prec; lia).
    rewrite Hle.
    exists p2, (e + n). split; [reflexivity | ].
    split.
    { unfold bounded, canonical_mantissa. rewrite Hd2.
      rewrite fexp_normal by lia. rewrite Hle.
      replace (53 + (e + n) - 53) with (e + n) by lia.
      now rewrite Z.eqb_refl. }
    split; [exact Hd2 | ]. split; [lia | ].
    replace (e + n - e) with n by lia.
    assert (Hy : Zpos p2 * 2 ^ n <= (shr_m r + 1) * 2 ^ n)
      by (apply Z.mul_le_mono_nonneg_r; lia).
    lia.
Qed.

Lemma binary_round_aux_exact (s : bool) (m : positive) (e : Z) :
  Zpos (digits2_pos m) = 53 -> -1074 <= e <= 971 ->
  binary_round_aux prec emax s (Zpos m) e loc_Exact = S754_finite s m e.
Proof.
  intros Hd He. unfold binary_round_aux, shr_fexp. cbn [Zdigits2].
  rewrite Hd, fexp_normal by lia.
  replace (53 + e - 53 - e) with 0 by lia.
  cbn [shr shr_record_of_loc shr_m loc_of_shr_record round_nearest_even Zdigits2].
  rewrite Hd, fexp_normal by lia.
  replace (53 + e - 53 - e) with 0 by lia.
  cbn [shr shr_record_of_loc shr_m].
  assert (Hle : (e <=? emax - prec) = true) by (apply Z.leb_le; unfold emax, prec; lia).
  now rewrite Hle.
Qed.

(** Rounding a mantissa of at most 53 digits changes nothing but the
    representation. *)
Lemma binary_round_exact (s : bool) (m : positive) (e : Z) :
  Zpos (digits2_pos m) <= 53 ->
  -1021 <= Zpos (digits2_pos m) + e <= 1024 ->
  exists m' e',
    binary_round prec emax s m e = S754_finite s m' e' /\
    bounded prec emax m' e' = true /\
    Zpos (digits2_pos m') = 53 /\
    e' = Zpos (digits2_pos m) + e - 53 /\
    Zpos m' = Zpos m * 2 ^ (e - e').
Proof.
  intros Hd He. unfold binary_round.
  rewrite fexp_normal by lia.
  unfold shl_align.
  pose proof (digits2_pos_bounds m) as [Hlo Hhi].
  destruct (Zpos (digits2_pos m) + e - 53 - e) as [ | p | p] eqn:En; try lia.
  - assert (Hd' : Zpos (digits2_pos m) = 53) by lia.
    rewrite binary_round_aux_exact by lia.
    exists m, e. repeat split; auto; try lia.
    + apply bounded_normal; lia.
    + replace (e - e) with 0 by lia. change (2 ^ 0) with 1. lia.
  - assert (Hp : Zpos p = 53 - Zpos (digits2_pos m)) by lia.
    assert (Hval : Zpos (Pos.iter xO m p) = Zpos m * 2 ^ Zpos p) by apply iter_xO_spec.
    assert (Hd' : Zpos (digits2_pos (Pos.iter xO m p)) = 53).
    { apply digits2_pos_unique. rewrite Hval.
      assert (E1 : 2 ^ (53 - 1) = 2 ^ (Zpos (digits2_pos m) - 1) * 2 ^ Zpos p)
        by (rewrite <- Z.pow_add_r by lia; f_equal; lia).
      assert (E2 : 2 ^ 53 = 2 ^ Zpos (digits2_pos m) * 2 ^ Zpos p)
        by (rewrite <- Z.pow_add_r by lia; f_equal; lia).
      rewrite E1, E2.
      assert (0 < 2 ^ Zpos p) by (apply Z.pow_pos_nonneg; lia).
      split.
      - apply Z.mul_le_mono_nonneg_r; lia.
      - apply Z.mul_lt_mono_pos_r; lia. }
    rewrite binary_round_aux_exact by lia.
    eexists _, _. split; [reflexivity | ].
    split; [apply bounded_normal; lia | ].
    split; [exact Hd' | ]. split; [reflexivity | ].
    rewrite Hval. f_equal. f_equal. lia.
Qed.

(** The same, for the value: a mantissa of fewer than 54 digits is not
    rounded. *)
Lemma binary_round_value (p : positive) (s : bool) (e : Z) :
  Zpos p < 2 ^ 53 -> -1021 <= e <= 900 ->
  exists m' e',
    binary_round prec emax s p e = S754_finite s m' e' /\
    bounded prec emax m' e' = true /\
    Fval m' e' = Zpos p * 2 ^ (e + 1074).
Proof.
  intros Hp He.
  pose proof (digits_le p 53 Hp) as Hd.
  assert (Hd1 : 1 <= Zpos (digits2_pos p)) by lia.
  destruct (binary_round_exact s p e Hd ltac:(lia)) as (m' & e' & E & Hb & Hd' & He' & Hv).
  exists m', e'. split; [exact E | ]. split; [exact Hb | ].
  unfold Fval. rewrite Hv, <- Z.mul_assoc, <- pow2_split by lia.
  f_equal. f_equal. lia.
Qed.

(** *** The order on valid numbers *)

Lemma Fval_lt_exp (m1 m2 : positive) (e1 e2 : Z) :
  bounded prec emax m1 e1 = true -> bounded prec emax m2 e2 = true ->
  e1 < e2 -> Fval m1 e1 < Fval m2 e2.
Proof.
  intros H1 H2 Hlt.
  apply bounded_inv in H1 as (He1 & Hd1 & _).
  apply bounded_inv in H2 as (He2 & _ & Hd2).
  specialize (Hd2 ltac:(lia)).
  pose proof (digits2_pos_bounds m1) as [_ Hhi].
  pose proof (digits2_pos_bounds m2) as [Hlo _].
  rewrite Hd2 in Hlo. change (2 ^ (53 - 1)) with (2 ^ 52) in Hlo.
  assert (Hm1 : Zpos m1 < 2 ^ 53).
  { eapply Z.lt_le_trans; [exact Hhi | apply Z.pow_le_mono_r; lia]. }
  unfold Fval.
  assert (Hp1 : 0 < 2 ^ (e1 + 1074)) by (apply Z.pow_pos_nonneg; lia).
  assert (Hp2 : 2 * 2 ^ (e1 + 1074) <= 2 ^ (e2 + 1074)).
  { rewrite <- Z.pow_succ_r by lia. apply Z.pow_le_mono_r; lia. }
  assert (Zpos m1 * 2 ^ (e1 + 1074) < 2 ^ 53 * 2 ^ (e1 + 1074))
    by (apply Z.mul_lt_mono_pos_r; lia).
  assert (2 ^ 52 * 2 ^ (e2 + 1074) <= Zpos m2 * 2 ^ (e2 + 1074))
    by (apply Z.mul_le_mono_nonneg_r; lia).
  assert (2 ^ 52 * (2 * 2 ^ (e1 + 1074)) <= 2 ^ 52 * 2 ^ (e2 + 1074))
    by (apply Z.mul_le_mono_nonneg_l; lia).
  replace (2 ^ 52 * (2 * 2 ^ (e1 + 1074))) with (2 ^ 53 * 2 ^ (e1 + 1074)) in *
    by (change (2 ^ 53) with (2 ^ 52 * 2); ring).
  lia.
Qed.

(** On valid positive numbers the order of the format is the order of the
    values. *)
Lemma SFcompare_pos (m1 m2 : positive) (e1 e2 : Z) :
  bounded prec emax m1 e1 = true -> bounded prec emax m2 e2 = true ->
  SFcompare (S754_finite false m1 e1) (S754_finite false m2 e2)
  = Some (Fval m1 e1 ?= Fval m2 e2).
Proof.
  intros H1 H2. cbn [SFcompare]. f_equal.
  destruct (Z.compare_spec e1 e2) as [E | L | G].
  - subst e2. unfold Fval.
    pose proof (bounded_inv _ _ H1) as (He & _).
    assert (0 < 2 ^ (e1 + 1074)) by (apply Z.pow_pos_nonneg; lia).
    rewrite Pos.compare_cont_spec. cbn [Pos.switch_Eq].
    change (m1 ?= m2)%positive with (Zpos m1 ?= Zpos m2).
    symmetry.
    destruct (Z.compare_spec (Zpos m1) (Zpos m2)) as [E | L | G].
    + apply Z.compare_eq_iff. now rewrite E.
    + apply Z.compare_lt_iff. apply Z.mul_lt_mono_pos_r; lia.
    + apply Z.compare_gt_iff. apply Z.mul_lt_mono_pos_r; lia.
  - symmetry. apply Z.compare_lt_iff. now apply Fval_lt_exp.
  - symmetry. apply Z.compare_gt_iff. now apply Fval_lt_exp.
Qed.

Lemma SFcompare_neg (m1 m2 : positive) (e1 e2 : Z) :
  bounded prec emax m1 e1 = true -> bounded prec emax m2 e2 = true ->
  SFcompare (S754_finite true m1 e1) (S754_finite true m2 e2)
  = Some (CompOpp (Fval m1 e1 ?= Fval m2 e2)).
Proof.
  intros H1 H2. pose proof (SFcompare_pos m1 m2 e1 e2 H1 H2) as Hp.
  cbn [SFcompare] in *. injection Hp as Hp. rewrite <- Hp. f_equal.
  destruct (e1 ?= e2); reflexivity.
Qed.

Lemma SFcompare_swap (a b : spec_float) :
  SFcompare b a = option_map CompOpp (SFcompare a b).
Proof.
  destruct a as [sa | sa | | sa ma ea], b as [sb | sb | | sb mb eb];
    try reflexivity;
    try (destruct sa; reflexivity);
    try (destruct sb; reflexivity);
    try (destruct sa, sb; reflexivity).
  cbn [SFcompare option_map].
  rewrite (Z.compare_antisym ea eb).
  assert (E : Pos.compare_cont Eq mb ma = CompOpp (Pos.compare_cont Eq ma mb))
    by (rewrite Pos.compare_cont_antisym; reflexivity).
  rewrite E.
  destruct sa, sb; try reflexivity;
    destruct (ea ?= eb); cbn [CompOpp]; reflexivity.
Qed.

(** *** Primitive floats and their specification *)

(** "At least" excludes "less than": the branch of [_set_cmd_vel] taken when
    [length_of_side <= distance] is the one of [not distance <
    length_of_side]. *)
Lemma ltb_false_of_leb (a b : float) :
  (b <=? a)%float = true -> (a <? b)%float = false.
Proof.
  rewrite leb_spec, ltb_spec. unfold SFleb, SFltb.
  rewrite (SFcompare_swap (Prim2SF b) (Prim2SF a)).
  destruct (SFcompare (Prim2SF b) (Prim2SF a)) as [[ | | ] | ]; cbn; congruence.
Qed.

Lemma Prim2SF_finite (s : bool) (m : positive) (e : Z) :
  bounded prec emax m e = true ->
  Prim2SF (SF2Prim (S754_finite s m e)) = S754_finite s m e.
Proof. intros H. apply Prim2SF_SF2Prim. exact H. Qed.

Lemma is_zero_finite (s : bool) (m : positive) (e : Z) :
  bounded prec emax m e = true ->
  is_zero (SF2Prim (S754_finite s m e)) = false.
Proof.
  intros H. unfold is_zero. rewrite eqb_spec, Prim2SF_finite by exact H.
  replace (Prim2SF zero) with (S754_zero false) by (vm_compute; reflexivity).
  destruct s; reflexivity.
Qed.

Lemma Prim2SF_math_pi : Prim2SF math_pi = S754_finite false mant_pi (-51).
Proof. vm_compute. reflexivity. Qed.

Lemma Prim2SF_two_pi : Prim2SF (2.0 * math_pi)%float = S754_finite false mant_pi (-50).
Proof. vm_compute. reflexivity. Qed.

Lemma Prim2SF_neg_pi : Prim2SF (- math_pi)%float = S754_finite true mant_pi (-51).
Proof. vm_compute. reflexivity. Qed.

Lemma mant_pi_val : Zpos mant_pi = 7074237752028440.
Proof. reflexivity. Qed.

Lemma bounded_pi : bounded prec emax mant_pi (-51) = true.
Proof. reflexivity. Qed.

(** [float(n)] is exact for [1 <= n < 2^53]. *)
Lemma float_of_int_exact (n : Z) :
  1 <= n < 2 ^ 53 ->
  exists m u,
    float_of_int n = Ok (SF2Prim (S754_finite false m (- u))) /\
    bounded prec emax m (- u) = true /\
    Zpos (digits2_pos m) = 53 /\
    0 <= u <= 52 /\
    Zpos m = n * 2 ^ u.
Proof.
  intros Hn. destruct n as [ | p | p]; try lia.
  pose proof (digits_le p 53 ltac:(lia)) as Hd.
  assert (Hd1 : 1 <= Zpos (digits2_pos p)) by lia.
  destruct (binary_round_exact false p 0 Hd ltac:(lia)) as (m' & e' & E & Hb & Hd' & He' & Hv).
  exists m', (- e'). rewrite Z.opp_involutive.
  unfold float_of_int. cbn [binary_normalize]. rewrite E.
  repeat split; auto; lia.
Qed.

(** What [float(n)] returns for [1 <= n < 2^53] is [n] itself. *)
Lemma float_of_int_is_exact (n : Z) (f : float) :
  1 <= n < 2 ^ 53 -> float_of_int n = Ok f -> exact_float n f.
Proof.
  intros Hn Hf.
  destruct (float_of_int_exact n Hn) as (m & u & E & Hb & _ & Hu & Hv).
  assert (Ef : f = SF2Prim (S754_finite false m (- u))) by congruence.
  subst f. exists m, u. split; [lia | ]. split; [apply Prim2SF_finite; exact Hb | exact Hv].
Qed.

(** There is one float at most that is [n] exactly: the mantissa and the
    exponent of a float are those of the format, and [n] has one such
    pair. *)
Lemma exact_float_bounded (f : float) (m : positive) (u : Z) :
  Prim2SF f = S754_finite false m (- u) -> bounded prec emax m (- u) = true.
Proof.
  intros E. pose proof (Prim2SF_valid f) as H. rewrite E in H. exact H.
Qed.

Lemma exact_mantissa_unique (n : Z) (m1 m2 : positive) (u1 u2 : Z) :
  0 <= u1 <= u2 ->
  bounded prec emax m1 (- u1) = true -> bounded prec emax m2 (- u2) = true ->
  Zpos m1 = n * 2 ^ u1 -> Zpos m2 = n * 2 ^ u2 ->
  u1 = u2.
Proof.
  intros Hu Hb1 Hb2 H1 H2.
  apply bounded_inv in Hb1 as (He1 & Hd1 & Hn1).
  apply bounded_inv in Hb2 as (He2 & Hd2 & Hn2).
  destruct (Z.eq_dec u1 u2) as [ | Hne]; [assumption | exfalso].
  assert (Hd : Zpos (digits2_pos m1) = 53) by (apply Hn1; lia).
  pose proof (digits2_pos_bounds m1) as [Hlo Hhi]. rewrite Hd in Hlo, Hhi.
  assert (Hk : 2 ^ u2 = 2 ^ u1 * 2 ^ (u2 - u1))
    by (rewrite <- Z.pow_add_r by lia; f_equal; lia).
  assert (Hm : Zpos m2 = Zpos m1 * 2 ^ (u2 - u1))
    by (rewrite H2, H1, Hk; ring).
  assert (Hp : 2 <= 2 ^ (u2 - u1)).
  { change 2 with (2 ^ 1) at 1. apply Z.pow_le_mono_r; lia. }
  assert (Hbig : 2 ^ 53 <= Zpos m2).
  { rewrite Hm. change (2 ^ 53) with (2 ^ 52 * 2).
    apply Z.mul_le_mono_nonneg; lia. }
  pose proof (digits_ge m2 53 ltac:(lia) Hbig). lia.
Qed.

Lemma exact_float_unique (n : Z) (f g : float) :
  exact_float n f -> exact_float n g -> f = g.
Proof.
  intros (m1 & u1 & Hu1 & E1 & H1) (m2 & u2 & Hu2 & E2 & H2).
  pose proof (exact_float_bounded f m1 u1 E1) as Hb1.
  pose proof (exact_float_bounded g m2 u2 E2) as Hb2.
  assert (Hu : u1 = u2).
  { destruct (Z.le_ge_cases u1 u2).
    - apply (exact_mantissa_unique n m1 m2); auto.
    - symmetry. apply (exact_mantissa_unique n m2 m1); auto. }
  subst u2. assert (Hm : m1 = m2) by (apply Pos2Z.inj; congruence). subst m2.
  apply Prim2SF_inj. congruence.
Qed.

(** [float(n)] is the conversion of the machine, [of_uint63], for an [n]
    that fits a machine integer. *)
Lemma float_of_int_of_uint63 (n : Z) (f : float) :
  0 <= n < 2 ^ 63 -> float_of_int n = Ok f ->
  f = of_uint63 (Uint63.of_Z n).
Proof.
  intros Hn Hf.
  assert (E : Uint63.to_Z (Uint63.of_Z n) = n).
  { rewrite Uint63.of_Z_spec. apply Z.mod_small. exact Hn. }
  unfold float_of_int in Hf. rewrite <- E, <- of_uint63_spec in Hf.
  rewrite <- (SF2Prim_Prim2SF (of_uint63 (Uint63.of_Z n))).
  destruct (Prim2SF (of_uint63 (Uint63.of_Z n))); congruence.
Qed.

Lemma is_finite_cases (a : float) :
  is_finite a = true ->
  (exists s, Prim2SF a = S754_zero s) \/ (exists s m e, Prim2SF a = S754_finite s m e).
Proof.
  unfold is_finite, is_nan, is_infinity. rewrite !eqb_spec, abs_spec.
  replace (Prim2SF infinity) with (S754_infinity false) by (vm_compute; reflexivity).
  destruct (Prim2SF a) as [s | s | | s m e]; intros H.
  - left. now exists s.
  - destruct s; cbn in H; discriminate.
  - cbn in H. discriminate.
  - right. now exists s, m, e.
Qed.

(** [a - a] is [+0] for a finite [a]. *)
Lemma sub_diag_finite (a : float) : is_finite a = true -> (a - a)%float = 0%float.
Proof.
  intros H. apply Prim2SF_inj. rewrite sub_spec.
  replace (Prim2SF 0) with (S754_zero false) by (vm_compute; reflexivity).
  destruct (is_finite_cases a H) as [[s ->] | (s & m & e & ->)].
  - destruct s; reflexivity.
  - unfold SF64sub, SFsub. rewrite Z.sub_diag. reflexivity.
Qed.

(** *** The division and the product of [_calc_target_direction] *)

(** [2.0 * math.pi / float(n)]. *)
Lemma div_two_pi (mn : positive) (u : Z) :
  Zpos (digits2_pos mn) = 53 -> 0 <= u <= 52 ->
  exists md ed i q,
    SF64div (S754_finite false mant_pi (-50)) (S754_finite false mn (- u))
    = S754_finite false md ed /\
    bounded prec emax md ed = true /\
    Zpos (digits2_pos md) = 53 /\
    ed = -103 + u + i /\ 0 <= i <= 2 /\
    2 ^ 52 * (Zpos md * 2 ^ i) <= (2 ^ 52 + 1) * q /\
    q * Zpos mn <= Zpos mant_pi * 2 ^ 53.
Proof.
  intros Hd Hu. pose proof (mant_53 mn Hd) as Hmn.
  unfold SF64div, SFdiv, SFdiv_core_binary. cbn [Zdigits2].
  rewrite Hd. change (Zpos (digits2_pos mant_pi)) with 53.
  replace (53 + -50 - (53 + - u)) with (-50 + u) by lia.
  rewrite fexp_normal by lia.
  replace (Z.min (-50 + u - 53) (-50 - - u)) with (-103 + u) by lia.
  replace (-50 - - u - (-103 + u)) with 53 by lia.
  cbv iota. rewrite Z.shiftl_mul_pow2 by lia.
  pose proof (Z_div_mod (Zpos mant_pi * 2 ^ 53) (Zpos mn) ltac:(lia)) as Hdm.
  destruct (Z.div_eucl (Zpos mant_pi * 2 ^ 53) (Zpos mn)) as [q r].
  destruct Hdm as [Eq Hr].
  assert (Hmp : 2 ^ 52 <= Zpos mant_pi < 2 ^ 53) by (vm_compute; split; congruence).
  assert (Hq1 : 2 ^ 52 <= q).
  { destruct (Z.leb_spec (2 ^ 52) q) as [ | Hlt]; auto.
    assert (Zpos mn * q <= Zpos mn * (2 ^ 52 - 1)) by (apply Z.mul_le_mono_nonneg_l; lia).
    assert (Zpos mn * 2 ^ 52 <= 2 ^ 53 * 2 ^ 52) by (apply Z.mul_le_mono_nonneg_r; lia).
    assert (2 ^ 52 * 2 ^ 53 <= Zpos mant_pi * 2 ^ 53) by (apply Z.mul_le_mono_nonneg_r; lia).
    lia. }
  assert (Hq2 : q < 2 ^ 54).
  { destruct (Z.ltb_spec q (2 ^ 54)) as [ | Hge]; auto.
    assert (Zpos mn * 2 ^ 54 <= Zpos mn * q) by (apply Z.mul_le_mono_nonneg_l; lia).
    assert (2 ^ 52 * 2 ^ 54 <= Zpos mn * 2 ^ 54) by (apply Z.mul_le_mono_nonneg_r; lia).
    assert (Zpos mant_pi * 2 ^ 53 < 2 ^ 53 * 2 ^ 53) by (apply Z.mul_lt_mono_pos_r; lia).
    change (2 ^ 52 * 2 ^ 54) with (2 ^ 53 * 2 ^ 53) in *.
    lia. }
  destruct q as [ | pq | pq]; try lia.
  pose proof (digits_ge pq 52 ltac:(lia) Hq1) as Hdq1.
  pose proof (digits_le pq 54 Hq2) as Hdq2.
  destruct (binary_round_aux_bound false pq (-103 + u) (new_location (Zpos mn) r)
              ltac:(lia) ltac:(lia) ltac:(lia))
    as (md & ed & E & Hb & Hdd & He & Hv).
  exists md, ed, (ed - (-103 + u)), (Zpos pq).
  split; [exact E | ]. split; [exact Hb | ]. split; [exact Hdd | ].
  split; [lia | ]. split; [lia | ]. split; [ | lia].
  pose proof (digits2_pos_bounds pq) as [Hlo _].
  replace (Zpos (digits2_pos pq) - 1) with (52 + (Zpos (digits2_pos pq) - 53)) in Hlo by lia.
  rewrite pow2_split in Hlo by lia.
  lia.
Qed.

Lemma chain_bound (A X J I U V D K Q N C k n : Z) :
  0 < A -> 0 <= X -> 0 < J -> 0 < I -> 0 < U -> 0 < V ->
  0 <= D -> 0 <= Q -> 0 <= k <= n ->
  K = k * V -> N = n * U ->
  A * (D * I) <= (A + 1) * Q ->
  Q * N <= C ->
  A * (X * J) <= (A + 1) * (D * K) ->
  A * A * X * (J * I * U) <= (A + 1) * (A + 1) * C * V.
Proof.
  intros HA HX HJ HI HU HV HD HQ Hk EK EN h1 h2 h3. subst K N.
  assert (s1 : A * (X * J) * (A * I * U) <= (A + 1) * (D * (k * V)) * (A * I * U)).
  { apply Z.mul_le_mono_nonneg_r; [ | exact h3].
    apply Z.mul_nonneg_nonneg; [apply Z.mul_nonneg_nonneg | ]; lia. }
  assert (s2 : A * (D * I) * ((A + 1) * k * V * U) <= (A + 1) * Q * ((A + 1) * k * V * U)).
  { apply Z.mul_le_mono_nonneg_r; [ | exact h1].
    repeat apply Z.mul_nonneg_nonneg; lia. }
  assert (s3 : Q * k * (U * V) <= Q * n * (U * V)).
  { apply Z.mul_le_mono_nonneg_r; [apply Z.mul_nonneg_nonneg; lia | ].
    apply Z.mul_le_mono_nonneg_l; lia. }
  assert (s4 : Q * (n * U) * (V * ((A + 1) * (A + 1))) <= C * (V * ((A + 1) * (A + 1)))).
  { apply Z.mul_le_mono_nonneg_r; [ | exact h2].
    repeat apply Z.mul_nonneg_nonneg; lia. }
  assert (s5 : Q * k * (U * V) * ((A + 1) * (A + 1)) <= Q * n * (U * V) * ((A + 1) * (A + 1))).
  { apply Z.mul_le_mono_nonneg_r; [ | exact s3].
    apply Z.mul_nonneg_nonneg; lia. }
  replace (A * A * X * (J * I * U)) with (A * (X * J) * (A * I * U)) by ring.
  eapply Z.le_trans; [exact s1 | ].
  replace ((A + 1) * (D * (k * V)) * (A * I * U))
    with (A * (D * I) * ((A + 1) * k * V * U)) by ring.
  eapply Z.le_trans; [exact s2 | ].
  replace ((A + 1) * Q * ((A + 1) * k * V * U))
    with (Q * k * (U * V) * ((A + 1) * (A + 1))) by ring.
  eapply Z.le_trans; [exact s5 | ].
  replace (Q * n * (U * V) * ((A + 1) * (A + 1)))
    with (Q * (n * U) * (V * ((A + 1) * (A + 1)))) by ring.
  eapply Z.le_trans; [exact s4 | ].
  apply Z.eq_le_incl. ring.
Qed.

(** [base * float(k)] for a [base] and a [float(k)] of 53 digits. *)
Lemma mul_bound (md mk : positive) (ed v : Z) :
  Zpos (digits2_pos md) = 53 -> Zpos (digits2_pos mk) = 53 ->
  -103 <= ed <= -49 -> 0 <= v <= 52 ->
  exists mx ex j,
    SF64mul (S754_finite false md ed) (S754_finite false mk (- v))
    = S754_finite false mx ex /\
    bounded prec emax mx ex = true /\
    Zpos (digits2_pos mx) = 53 /\
    ex = ed - v + j /\ 52 <= j <= 54 /\
    2 ^ 52 * (Zpos mx * 2 ^ j) <= (2 ^ 52 + 1) * (Zpos md * Zpos mk).
Proof.
  intros Hdd Hdk Hed Hv.
  pose proof (mant_53 md Hdd) as Hmd. pose proof (mant_53 mk Hdk) as Hmk.
  unfold SF64mul, SFmul. cbn [xorb].
  assert (Hp1 : 2 ^ 104 <= Zpos (md * mk)).
  { rewrite Pos2Z.inj_mul. change (2 ^ 104) with (2 ^ 52 * 2 ^ 52).
    apply Z.mul_le_mono_nonneg; lia. }
  assert (Hp2 : Zpos (md * mk) < 2 ^ 106).
  { rewrite Pos2Z.inj_mul. change (2 ^ 106) with (2 ^ 53 * 2 ^ 53).
    apply Z.mul_lt_mono_nonneg; lia. }
  pose proof (digits_ge (md * mk) 104 ltac:(lia) Hp1) as Hd1.
  pose proof (digits_le (md * mk) 106 Hp2) as Hd2.
  destruct (binary_round_aux_bound false (md * mk) (ed + - v) loc_Exact
              ltac:(lia) ltac:(lia) ltac:(lia))
    as (mx & ex & E & Hb & Hdx & He & Hval).
  exists mx, ex, (ex - (ed + - v)).
  split; [exact E | ]. split; [exact Hb | ]. split; [exact Hdx | ].
  split; [lia | ]. split; [lia | ].
  pose proof (digits2_pos_bounds (md * mk)) as [Hlo _].
  replace (Zpos (digits2_pos (md * mk)) - 1)
    with (52 + (Zpos (digits2_pos (md * mk)) - 53)) in Hlo by lia.
  rewrite pow2_split in Hlo by lia.
  rewrite Pos2Z.inj_mul in *.
  lia.
Qed.

(** The value that enters the loop of [_calc_target_direction]. *)
Lemma target_direction_bound (n k : Z) :
  1 <= k <= n -> n < 2 ^ 53 ->
  exists d x0 mx ex,
    truediv_int (2.0 * math_pi) n = Ok d /\
    mul_int d k = Ok x0 /\
    Prim2SF x0 = S754_finite false mx ex /\
    bounded prec emax mx ex = true /\
    Zpos (digits2_pos mx) = 53 /\
    -103 <= ex /\
    2 ^ 52 * 2 ^ 52 * Zpos mx * 2 ^ (ex + 103)
    <= (2 ^ 52 + 1) * (2 ^ 52 + 1) * (Zpos mant_pi * 2 ^ 53).
Proof.
  intros Hk Hn.
  destruct (float_of_int_exact n ltac:(lia)) as (mn & u & En & Hbn & Hdn & Hu & Hvn).
  destruct (float_of_int_exact k ltac:(lia)) as (mk & v & Ek & Hbk & Hdk & Hv & Hvk).
  destruct (div_two_pi mn u Hdn Hu) as (md & ed & i & q & Ed & Hbd & Hdd & Hed & Hi & h1 & h2).
  destruct (mul_bound md mk ed v Hdd Hdk ltac:(lia) Hv)
    as (mx & ex & j & Ex & Hbx & Hdx & Hex & Hj & h3).
  exists (2.0 * math_pi / SF2Prim (S754_finite false mn (- u)))%float.
  exists (2.0 * math_pi / SF2Prim (S754_finite false mn (- u))
          * SF2Prim (S754_finite false mk (- v)))%float.
  exists mx, ex.
  assert (Pd : Prim2SF (2.0 * math_pi / SF2Prim (S754_finite false mn (- u)))%float
               = S754_finite false md ed).
  { rewrite div_spec, Prim2SF_two_pi, Prim2SF_finite by exact Hbn. exact Ed. }
  split.
  { unfold truediv_int. rewrite En. unfold truediv.
    rewrite is_zero_finite by exact Hbn. reflexivity. }
  split.
  { unfold mul_int. rewrite Ek. reflexivity. }
  split.
  { rewrite mul_spec, Pd, Prim2SF_finite by exact Hbk. exact Ex. }
  split; [exact Hbx | ]. split; [exact Hdx | ]. split; [lia | ].
  assert (HJ : 0 < 2 ^ j) by (apply Z.pow_pos_nonneg; lia).
  assert (HI : 0 < 2 ^ i) by (apply Z.pow_pos_nonneg; lia).
  assert (HU : 0 < 2 ^ u) by (apply Z.pow_pos_nonneg; lia).
  assert (HV : 0 < 2 ^ v) by (apply Z.pow_pos_nonneg; lia).
  assert (Hq : 0 <= q).
  { destruct (Z.leb_spec 0 q) as [ | Hneg]; auto.
    assert (0 < 2 ^ 52 * (Zpos md * 2 ^ i)) by (repeat apply Z.mul_pos_pos; lia).
    assert ((2 ^ 52 + 1) * q < 0) by (apply Z.mul_pos_neg; lia). lia. }
  pose proof (chain_bound (2 ^ 52) (Zpos mx) (2 ^ j) (2 ^ i) (2 ^ u) (2 ^ v)
                (Zpos md) (Zpos mk) q (Zpos mn) (Zpos mant_pi * 2 ^ 53) k n
                ltac:(lia) ltac:(lia) HJ HI HU HV ltac:(lia) Hq ltac:(lia)
                Hvk Hvn h1 h2 h3) as Hc.
  assert (Epow : 2 ^ (ex + 103) * 2 ^ v = 2 ^ j * 2 ^ i * 2 ^ u).
  { rewrite <- !pow2_split by lia. f_equal. lia. }
  rewrite <- Epow in Hc.
  apply Z.mul_le_mono_pos_r with (p := 2 ^ v); [exact HV | ].
  eapply Z.le_trans; [ | exact Hc].
  apply Z.eq_le_incl. ring.
Qed.

(** *** The subtraction of the loop *)

Lemma SFsub_aligned (mx my : positive) (e : Z) :
  SF64sub (S754_finite false mx e) (S754_finite false my e)
  = binary_normalize prec emax (Zpos mx - Zpos my) e false.
Proof.
  unfold SF64sub, SFsub. rewrite Z.min_id. unfold shl_align.
  rewrite Z.sub_diag. reflexivity.
Qed.

Lemma SFsub_shift (mx my : positive) (e : Z) :
  SF64sub (S754_finite false mx e) (S754_finite false my (e + 1))
  = binary_normalize prec emax (Zpos mx - Zpos my~0) e false.
Proof.
  unfold SF64sub, SFsub. replace (Z.min e (e + 1)) with e by lia.
  unfold shl_align. rewrite Z.sub_diag.
  replace (e - (e + 1)) with (-1) by lia. reflexivity.
Qed.

Lemma Fval_scale (m : positive) (e : Z) (c : Z) (W : Z) :
  0 < W -> 2 ^ (e + 1074) = c * W -> Fval m e = (Zpos m * c) * W.
Proof. intros HW E. unfold Fval. rewrite E. ring. Qed.

Lemma in_range_neg (t : float) (m : positive) (e : Z) :
  Prim2SF t = S754_finite true m e -> bounded prec emax m e = true ->
  Fval m e < Fval mant_pi (-51) ->
  in_range t.
Proof.
  intros Ht Hb Hlt. unfold in_range.
  rewrite !ltb_spec, leb_spec, Prim2SF_math_pi, Prim2SF_neg_pi, Ht.
  split; [reflexivity | ]. split; [reflexivity | ].
  unfold SFltb. rewrite SFcompare_neg by (exact Hb || exact bounded_pi).
  apply Z.compare_gt_iff in Hlt. rewrite Hlt. reflexivity.
Qed.

Lemma in_range_pos (t : float) (m : positive) (e : Z) :
  Prim2SF t = S754_finite false m e -> bounded prec emax m e = true ->
  Fval m e <= Fval mant_pi (-51) ->
  in_range t.
Proof.
  intros Ht Hb Hle. unfold in_range.
  rewrite !ltb_spec, leb_spec, Prim2SF_math_pi, Prim2SF_neg_pi, Ht.
  unfold SFltb, SFleb.
  rewrite (SFcompare_pos mant_pi m) by (exact Hb || exact bounded_pi).
  rewrite (SFcompare_pos m mant_pi) by (exact Hb || exact bounded_pi).
  split; [ | split; [ | reflexivity]].
  - destruct (Z.compare_spec (Fval mant_pi (-51)) (Fval m e)); auto; lia.
  - destruct (Z.compare_spec (Fval m e) (Fval mant_pi (-51))); auto; lia.
Qed.

Lemma in_range_zero (t : float) :
  Prim2SF t = S754_zero false -> in_range t.
Proof.
  intros Ht. unfold in_range.
  rewrite !ltb_spec, leb_spec, Prim2SF_math_pi, Prim2SF_neg_pi, Ht.
  repeat split; reflexivity.
Qed.

Lemma loop_step (x0 : float) (mx : positive) (ex : Z) :
  Prim2SF x0 = S754_finite false mx ex ->
  bounded prec emax mx ex = true ->
  Zpos (digits2_pos mx) = 53 ->
  -103 <= ex ->
  2 ^ 52 * 2 ^ 52 * Zpos mx * 2 ^ (ex + 103)
  <= (2 ^ 52 + 1) * (2 ^ 52 + 1) * (Zpos mant_pi * 2 ^ 53) ->
  ((math_pi <? x0)%float = false /\ in_range x0) \/
  ((math_pi <? x0)%float = true /\ in_range (x0 - 2.0 * math_pi)%float).
Proof.
  intros Hx Hb Hd Hex Hbound.
  pose proof (mant_53 mx Hd) as Hmx.
  pose proof mant_pi_val as Hpi.
  rewrite ltb_spec, Prim2SF_math_pi, Hx. unfold SFltb.
  rewrite (SFcompare_pos mant_pi mx) by (exact Hb || exact bounded_pi).
  destruct (Z.compare_spec (Fval mant_pi (-51)) (Fval mx ex)) as [E | L | G].
  - left. split; [reflexivity | ]. apply (in_range_pos x0 mx ex Hx Hb). lia.
  - right. split; [reflexivity | ].
    assert (Hlo : -51 <= ex).
    { destruct (Z.leb_spec (-51) ex) as [ | Hlt]; auto.
      pose proof (Fval_lt_exp mx mant_pi ex (-51) Hb bounded_pi Hlt). lia. }
    assert (Hhi : ex <= -50).
    { destruct (Z.leb_spec ex (-50)) as [ | Hgt]; auto.
      assert (H1 : 2 ^ 54 <= 2 ^ (ex + 103)) by (apply Z.pow_le_mono_r; lia).
      assert (H2 : 2 ^ 52 * 2 ^ 52 * 2 ^ 52 * 2 ^ 54 <= 2 ^ 52 * 2 ^ 52 * Zpos mx * 2 ^ (ex + 103)).
      { apply Z.mul_le_mono_nonneg; lia. }
      rewrite Hpi in Hbound. lia. }
    assert (HW : 0 < 2 ^ 1023) by (apply Z.pow_pos_nonneg; lia).
    assert (E51 : 2 ^ (-51 + 1074) = 1 * 2 ^ 1023) by (rewrite Z.mul_1_l; reflexivity).
    assert (E50 : 2 ^ (-50 + 1074) = 2 * 2 ^ 1023)
      by (change (-50 + 1074) with (Z.succ 1023); apply Z.pow_succ_r; lia).
    rewrite (Fval_scale mant_pi (-51) 1 _ HW E51) in *.
    assert (Hcase : ex = -51 \/ ex = -50) by lia.
    destruct Hcase as [-> | ->].
    + (* pi < x0 < 4 *)
      rewrite (Fval_scale mx (-51) 1 _ HW E51) in L.
      assert (Hlt : Zpos mant_pi < Zpos mx).
      { apply Z.mul_lt_mono_pos_r in L; lia. }
      assert (Hs : Prim2SF (x0 - 2.0 * math_pi)%float
                   = binary_normalize prec emax (Zpos mx - Zpos mant_pi~0) (-51) false).
      { rewrite sub_spec, Hx, Prim2SF_two_pi. exact (SFsub_shift mx mant_pi (-51)). }
      assert (Hxo : Zpos mant_pi~0 = 2 * Zpos mant_pi) by apply Pos2Z.inj_xO.
      destruct (Zpos mx - Zpos mant_pi~0) as [ | p | p] eqn:Ediff; try lia.
      cbn [binary_normalize] in Hs.
      destruct (binary_round_value p true (-51) ltac:(lia) ltac:(lia))
        as (m' & e' & Er & Hb' & Hv).
      rewrite Er in Hs.
      apply (in_range_neg _ m' e' Hs Hb').
      rewrite Hv, E51, (Fval_scale mant_pi (-51) 1 _ HW E51).
      apply Z.mul_lt_mono_pos_r; lia.
    + (* 4 <= x0 *)
      assert (Hs : Prim2SF (x0 - 2.0 * math_pi)%float
                   = binary_normalize prec emax (Zpos mx - Zpos mant_pi) (-50) false).
      { rewrite sub_spec, Hx, Prim2SF_two_pi. exact (SFsub_aligned mx mant_pi (-50)). }
      change (-50 + 103) with 53 in Hbound.
      destruct (Zpos mx - Zpos mant_pi) as [ | p | p] eqn:Ediff.
      * cbn [binary_normalize] in Hs. apply in_range_zero. exact Hs.
      * cbn [binary_normalize] in Hs.
        destruct (binary_round_value p false (-50) ltac:(lia) ltac:(lia))
          as (m' & e' & Er & Hb' & Hv).
        rewrite Er in Hs.
        apply (in_range_pos _ m' e' Hs Hb').
        rewrite Hv, E50, (Fval_scale mant_pi (-51) 1 _ HW E51).
        replace (Zpos p * (2 * 2 ^ 1023)) with (Zpos p * 2 * 2 ^ 1023) by ring.
        apply Z.mul_le_mono_nonneg_r; [lia | ].
        rewrite Hpi in *. lia.
      * cbn [binary_normalize] in Hs.
        destruct (binary_round_value p true (-50) ltac:(lia) ltac:(lia))
          as (m' & e' & Er & Hb' & Hv).
        rewrite Er in Hs.
        apply (in_range_neg _ m' e' Hs Hb').
        rewrite Hv, E50, (Fval_scale mant_pi (-51) 1 _ HW E51).
        replace (Zpos p * (2 * 2 ^ 1023)) with (Zpos p * 2 * 2 ^ 1023) by ring.
        apply Z.mul_lt_mono_pos_r; [lia | ].
        rewrite Hpi in *. lia.
  - left. split; [reflexivity | ]. apply (in_range_pos x0 mx ex Hx Hb). lia.
Qed.

(** ** The target direction *)

Lemma while_pi_lt_done (fuel : nat) (t : float) :
  (math_pi <? t)%float = false -> while_pi_lt fuel t = Ok t.
Proof. intros H. destruct fuel; cbn [while_pi_lt]; rewrite H; reflexivity. Qed.

Lemma while_pi_lt_step (fuel : nat) (t : float) :
  (math_pi <? t)%float = true ->
  while_pi_lt (S fuel) t = while_pi_lt fuel (t - 2.0 * math_pi)%float.
Proof. intros H. cbn [while_pi_lt]. rewrite H. reflexivity. Qed.

(** For a side count below [2^53] and a turn count below the side count, one
    turn of the loop is enough, and what it leaves is in (-pi, pi]. *)
Lemma target_direction_total (fuel : nat) (n turn_count : Z) :
  (1 <= fuel)%nat -> 0 <= turn_count < n -> n < 2 ^ 53 ->
  exists fn fk t,
    float_of_int n = Ok fn /\
    float_of_int (turn_count + 1) = Ok fk /\
    wraps_down (2.0 * math_pi / fn * fk)%float t /\
    target_direction fuel n turn_count = Ok t /\
    in_range t.
Proof.
  intros Hfuel Htc Hn.
  destruct (target_direction_bound n (turn_count + 1) ltac:(lia) Hn)
    as (d & x0 & mx & ex & Ed & Ex & Hx & Hb & Hdg & Hex & Hbound).
  unfold target_direction. rewrite Ed, Ex.
  unfold truediv_int in Ed. destruct (float_of_int n) as [fn | e | ] eqn:Efn; try discriminate.
  unfold truediv in Ed. destruct (is_zero fn); try discriminate.
  injection Ed as <-.
  unfold mul_int in Ex.
  destruct (float_of_int (turn_count + 1)) as [fk | e | ] eqn:Efk; try discriminate.
  injection Ex as <-.
  destruct (loop_step _ mx ex Hx Hb Hdg Hex Hbound) as [[Hlt Hr] | [Hlt Hr]].
  - exists fn, fk, (2.0 * math_pi / fn * fk)%float.
    split; [reflexivity | ]. split; [reflexivity | ].
    split; [apply wraps_done; exact Hlt | ].
    split; [apply while_pi_lt_done; exact Hlt | exact Hr].
  - exists fn, fk, (2.0 * math_pi / fn * fk - 2.0 * math_pi)%float.
    split; [reflexivity | ]. split; [reflexivity | ].
    pose proof Hr as (Hlt' & _).
    split; [apply wraps_step; [exact Hlt | apply wraps_done; exact Hlt'] | ].
    split; [ | exact Hr].
    destruct fuel as [ | fuel]; [lia | ].
    rewrite while_pi_lt_step by exact Hlt.
    apply while_pi_lt_done; exact Hlt'.
Qed.

Lemma calc_target_direction_eq (fuel : nat) (p : option Pose) (c : Z)
    (self : TurtlesimController) :
  _calc_target_direction fuel p c self
  = (target_direction fuel (num_of_sides (_param self)) (_turn_count self), self).
Proof.
  unfold _calc_target_direction, target_direction, bind, get, lift.
  destruct (truediv_int (2.0 * math_pi) (num_of_sides (_param self))) as [base | e | ];
    try reflexivity.
  destruct (mul_int base (_turn_count self + 1)) as [t | e | ]; reflexivity.
Qed.

(** ** One update, case by case *)

Section Updates.

Variable hypot : float -> float -> float.

Lemma callback_terminal (fuel : nat) (msg : Pose) (self : TurtlesimController) :
  (_turn_count self <? num_of_sides (_param self)) = false ->
  _pose_callback hypot fuel msg self
  = (Ok tt, push_cmd_vel Twist_0 (set_pose (Some msg) self)).
Proof.
  intros H. unfold _pose_callback, _set_cmd_vel, _can_move, bind, modify, get, ret.
  cbn [set_pose _turn_count _param]. rewrite H. reflexivity.
Qed.

Lemma callback_straight (fuel : nat) (msg : Pose) (self : TurtlesimController) :
  (_turn_count self <? num_of_sides (_param self)) = true ->
  (distance hypot (reference_pose self msg) msg <? length_of_side (_param self))%float = true ->
  _pose_callback hypot fuel msg self
  = (Ok tt, push_cmd_vel (VelocityCommand (velocity (_turtle self)) 0)
              (at_update (reference_pose self msg) msg self)).
Proof.
  intros Hmove Hd. unfold reference_pose, distance in *.
  destruct self as [prm [p v w] prev tc pub]. cbn in Hmove, Hd.
  unfold _pose_callback, _set_cmd_vel, _can_move, bind, modify, get, ret. cbn.
  rewrite Hmove. cbn.
  destruct prev as [r | ]; cbn; unfold bind; cbn; rewrite Hd; reflexivity.
Qed.

Lemma can_turn_eq (fuel : nat) (msg : Pose) (self : TurtlesimController) :
  pose (_turtle self) = Some msg ->
  _can_turn fuel self
  = match target_direction fuel (num_of_sides (_param self)) (_turn_count self) with
    | Ok t =>
        (Ok ((turn_direction_th (_param self) <? abs (t - theta msg))%float
             && (_turn_count self <? num_of_sides (_param self) - 1)), self)
    | Raise e => (Raise e, self)
    | OutOfFuel => (OutOfFuel, self)
    end.
Proof.
  intros Hp. unfold _can_turn, bind, get. rewrite calc_target_direction_eq.
  destruct (target_direction fuel (num_of_sides (_param self)) (_turn_count self))
    as [t | e | ]; try reflexivity.
  rewrite Hp. cbn [attr ret].
  destruct (turn_direction_th (_param self) <? abs (t - theta msg))%float; reflexivity.
Qed.

Lemma callback_corner (fuel : nat) (msg : Pose) (self : TurtlesimController) :
  (_turn_count self <? num_of_sides (_param self)) = true ->
  (distance hypot (reference_pose self msg) msg <? length_of_side (_param self))%float = false ->
  _pose_callback hypot fuel msg self
  = match target_direction fuel (num_of_sides (_param self)) (_turn_count self) with
    | Ok t =>
        if (turn_direction_th (_param self) <? abs (t - theta msg))%float
           && (_turn_count self <? num_of_sides (_param self) - 1)
        then (Ok tt, push_cmd_vel (VelocityCommand 0 (yawrate (_turtle self)))
                       (at_update (reference_pose self msg) msg self))
        else (Ok tt, push_cmd_vel (VelocityCommand 0 0)
                       (set_prev_turn_pose None
                          (set_turn_count (_turn_count self + 1)
                             (at_update (reference_pose self msg) msg self))))
    | Raise e => (Raise e, at_update (reference_pose self msg) msg self)
    | OutOfFuel => (OutOfFuel, at_update (reference_pose self msg) msg self)
    end.
Proof.
  intros Hmove Hd. unfold reference_pose, distance in *.
  destruct self as [prm [p v w] prev tc pub]. cbn in Hmove, Hd.
  unfold _pose_callback, _set_cmd_vel, _can_move, bind, modify, get, ret.
  cbn -[_can_turn _calc_target_direction].
  rewrite Hmove. cbn -[_can_turn _calc_target_direction].
  destruct prev as [r | ]; cbn -[_can_turn _calc_target_direction];
    unfold bind; cbn -[_can_turn _calc_target_direction]; rewrite Hd;
    rewrite (can_turn_eq fuel msg) by reflexivity;
    cbn -[_can_turn _calc_target_direction target_direction];
    (destruct (target_direction fuel (num_of_sides prm) tc) as [t | e | ] eqn:Et;
     [ | reflexivity | reflexivity ]);
    (destruct ((turn_direction_th prm <? abs (t - theta msg))%float
               && (tc <? num_of_sides prm - 1)));
    try reflexivity;
    rewrite calc_target_direction_eq;
    cbn -[_can_turn _calc_target_direction target_direction];
    rewrite Et; reflexivity.
Qed.

End Updates.

(** ** Runs *)

Section Runs.

Variable hypot : float -> float -> float.

Lemma distance_self (p : Pose) :
  finite_pose p -> hypot 0 0 = 0%float -> distance hypot p p = 0%float.
Proof.
  intros [Hx Hy] H0. unfold distance.
  rewrite (sub_diag_finite _ Hx), (sub_diag_finite _ Hy). exact H0.
Qed.

(** ** What an update does to the counter and the configuration *)

Lemma callback_cases (fuel : nat) (msg : Pose) (self : TurtlesimController) :
  let self' := snd (_pose_callback hypot fuel msg self) in
  _param self' = _param self /\
  velocity (_turtle self') = velocity (_turtle self) /\
  yawrate (_turtle self') = yawrate (_turtle self) /\
  (_turn_count self' = _turn_count self \/
   _turn_count self' = _turn_count self + 1 /\
   _turn_count self < num_of_sides (_param self)).
Proof.
  cbv zeta.
  destruct (_turn_count self <? num_of_sides (_param self)) eqn:Hmove.
  - destruct (distance hypot (reference_pose self msg) msg
              <? length_of_side (_param self))%float eqn:Hd.
    + rewrite (callback_straight hypot fuel msg self Hmove Hd). fields. auto 8.
    + rewrite (callback_corner hypot fuel msg self Hmove Hd).
      apply Z.ltb_lt in Hmove.
      destruct (target_direction fuel (num_of_sides (_param self)) (_turn_count self))
        as [t | e | ]; [ | fields; auto 8 | fields; auto 8].
      destruct ((turn_direction_th (_param self) <? abs (t - theta msg))%float
                && (_turn_count self <? num_of_sides (_param self) - 1));
        fields; auto 8.
  - rewrite (callback_terminal hypot fuel msg self Hmove). fields. auto 8.
Qed.

Lemma reachable_inv (ps : ParamServer) (self : TurtlesimController) :
  reachable hypot ps self ->
  _param self = config_of ps /\
  0 <= _turn_count self /\
  (0 <= num_of_sides (config_of ps) -> _turn_count self <= num_of_sides (config_of ps)).
Proof.
  induction 1 as [self Hinit | fuel msg self Hr (IHp & IH0 & IHn)].
  - unfold __init__ in Hinit. injection Hinit as <-. cbn. unfold config_of. auto with zarith.
  - pose proof (callback_cases fuel msg self) as (Hp & _ & _ & Htc). cbn zeta in *.
    rewrite Hp, IHp. split; [reflexivity | ].
    rewrite IHp in Htc. lia.
Qed.

(** One update from a state whose counter is not negative and whose side
    count is below [2^53]: it returns, and publishes one command. *)
Lemma callback_total (fuel : nat) (msg : Pose) (self : TurtlesimController) :
  (1 <= fuel)%nat -> 0 <= _turn_count self -> num_of_sides (_param self) < 2 ^ 53 ->
  exists self' cmd,
    _pose_callback hypot fuel msg self = (Ok tt, self') /\
    _cmd_vel_pub self' = _cmd_vel_pub self ++ [cmd] /\
    command_of self cmd.
Proof.
  intros Hfuel Htc Hn. unfold command_of.
  destruct (_turn_count self <? num_of_sides (_param self)) eqn:Hmove.
  - destruct (distance hypot (reference_pose self msg) msg
              <? length_of_side (_param self))%float eqn:Hd.
    + rewrite (callback_straight hypot fuel msg self Hmove Hd).
      eexists _, _. split; [reflexivity | ]. split; [reflexivity | auto].
    + rewrite (callback_corner hypot fuel msg self Hmove Hd).
      apply Z.ltb_lt in Hmove.
      destruct (target_direction_total fuel _ _ Hfuel (conj Htc Hmove) Hn)
        as (fn & fk & t & _ & _ & _ & -> & _).
      destruct ((turn_direction_th (_param self) <? abs (t - theta msg))%float
                && (_turn_count self <? num_of_sides (_param self) - 1));
        (eexists _, _; split; [reflexivity | ]; split; [reflexivity | auto]).
  - rewrite (callback_terminal hypot fuel msg self Hmove).
    eexists _, _. split; [reflexivity | ]. split; [reflexivity | auto].
Qed.

End Runs.

(** ** The model at work *)

Example target_directions_of_the_triangle :
  target_direction 1 3 0 = Ok (2.0 * math_pi / 3)%float /\
  target_direction 1 3 1 = Ok (2.0 * math_pi / 3 * 2 - 2.0 * math_pi)%float /\
  target_direction 1 3 2 = Ok 0%float.
Proof. repeat split; vm_compute; reflexivity. Qed.

(** The scenario of the specification. *)
Example scenario_of_the_specification :
  _cmd_vel_pub
    (process hypot_sqrt 1 [pose_at 0 0 0; pose_at 0.5 0 0; pose_at 1 0 0] triangle)
  = [VelocityCommand 0.5 0; VelocityCommand 0.5 0; VelocityCommand 0 float_0_3].
Proof. vm_compute. reflexivity. Qed.

Example tour_of_the_triangle :
  let self := process hypot_sqrt 1 tour triangle in
  _turn_count self = 3 /\
  _prev_turn_pose self = None /\
  _cmd_vel_pub self
  = [VelocityCommand 0.5 0; VelocityCommand 0.5 0; VelocityCommand 0 float_0_3;
     VelocityCommand 0 0; VelocityCommand 0.5 0;
     VelocityCommand 0 float_0_3; VelocityCommand 0 0; VelocityCommand 0.5 0;
     VelocityCommand 0 0; VelocityCommand 0 0].
Proof. repeat split; vm_compute; reflexivity. Qed.

(** Outside the values the controller gives it, the loop need not end and
    the division can fail: the reason for the fuel and the exceptions of the
    model.  A side count of 0 is never divided by, since then no state has
    [turn_count < num_of_sides]; one of [2^1024] is beyond any ROS integer
    parameter. *)
Example loop_on_infinity (fuel : nat) : while_pi_lt fuel infinity = OutOfFuel.
Proof.
  induction fuel as [ | fuel IH]; [reflexivity | ].
  cbn [while_pi_lt].
  replace (math_pi <? infinity)%float with true by (vm_compute; reflexivity).
  replace (infinity - 2.0 * math_pi)%float with infinity by (vm_compute; reflexivity).
  exact IH.
Qed.

Example exceptions_of_the_division :
  target_direction 1 0 0 = Raise ZeroDivisionError /\
  target_direction 1 (2 ^ 1024) 0 = Raise OverflowError.
Proof. split; vm_compute; reflexivity. Qed.

(** * The claims *)

Section Spec.

Variable hypot : float -> float -> float.

(** C1. Terminal stability: once [turn_count] has reached [num_of_sides],
    every pose update returns normally, publishes the zero command and
    changes nothing of the controller but the latest pose; so over any
    sequence of further poses the counter, the configuration and the
    reference pose stay as they are and only zero commands are published. *)
Theorem terminal_stability (fuel : nat) (msgs : list Pose)
    (self : TurtlesimController) :
  num_of_sides (_param self) <= _turn_count self ->
  (forall msg : Pose,
      _pose_callback hypot fuel msg self
      = (Ok tt, push_cmd_vel (VelocityCommand 0 0) (set_pose (Some msg) self))) /\
  (let self' := process hypot fuel msgs self in
   _turn_count self' = _turn_count self /\
   _param self' = _param self /\
   _prev_turn_pose self' = _prev_turn_pose self /\
   velocity (_turtle self') = velocity (_turtle self) /\
   yawrate (_turtle self') = yawrate (_turtle self) /\
   _cmd_vel_pub self'
   = _cmd_vel_pub self ++ repeat (VelocityCommand 0 0) (length msgs)).
Proof.
  intros Hdone.
  assert (Hstep : forall (s : TurtlesimController) (msg : Pose),
             num_of_sides (_param s) <= _turn_count s ->
             _pose_callback hypot fuel msg s
             = (Ok tt, push_cmd_vel (VelocityCommand 0 0) (set_pose (Some msg) s))).
  { intros s msg Hs. apply callback_terminal. apply Z.ltb_ge. exact Hs. }
  split; [intros msg; apply Hstep; exact Hdone | ].
  cbv zeta. revert self Hdone.
  induction msgs as [ | msg msgs IH]; intros self Hdone.
  - cbn [process length repeat]. rewrite app_nil_r. auto 8.
  - cbn [process length repeat]. rewrite (Hstep self msg Hdone). cbn [snd].
    destruct (IH (push_cmd_vel (VelocityCommand 0 0) (set_pose (Some msg) self)) Hdone)
      as (H1 & H2 & H3 & H4 & H5 & H6).
    rewrite H1, H2, H3, H4, H5, H6. fields.
    rewrite <- app_assoc. auto 8.
Qed.

(** C3. Last-corner exemption: with [turn_count = num_of_sides - 1] and the
    pose not nearer to the reference pose than [length_of_side] (the case of
    [length_of_side <= distance], see [ltb_false_of_leb]), the update
    returns normally and publishes one command, the [Twist] whose six fields
    are zero, never a turn, whatever the heading; the counter becomes
    [num_of_sides], the reference pose is cleared, the pose of the message
    is the latest pose, and the configuration and the speeds are as they
    were.  The counter is not negative, the side count is below [2^53], and
    the loop has fuel for one turn. *)
Theorem last_corner_exemption (fuel : nat) (msg : Pose)
    (self : TurtlesimController) :
  (1 <= fuel)%nat ->
  0 <= _turn_count self ->
  _turn_count self = num_of_sides (_param self) - 1 ->
  num_of_sides (_param self) < 2 ^ 53 ->
  (distance hypot (reference_pose self msg) msg
   <? length_of_side (_param self))%float = false ->
  let self' := snd (_pose_callback hypot fuel msg self) in
  _pose_callback hypot fuel msg self
  = (Ok tt, push_cmd_vel (VelocityCommand 0 0)
              (set_prev_turn_pose None
                 (set_turn_count (num_of_sides (_param self))
                    (set_pose (Some msg) self)))) /\
  fst (_pose_callback hypot fuel msg self) = Ok tt /\
  _cmd_vel_pub self'
  = _cmd_vel_pub self ++ [mkTwist (mkVector3 0 0 0) (mkVector3 0 0 0)] /\
  _turn_count self' = num_of_sides (_param self) /\
  _turn_count self' = _turn_count self + 1 /\
  _prev_turn_pose self' = None /\
  pose (_turtle self') = Some msg /\
  _param self' = _param self /\
  velocity (_turtle self') = velocity (_turtle self) /\
  yawrate (_turtle self') = yawrate (_turtle self).
Proof.
  intros Hfuel Htc Hlast Hn Hd. cbv zeta.
  assert (Hmove : (_turn_count self <? num_of_sides (_param self)) = true)
    by (apply Z.ltb_lt; lia).
  rewrite (callback_corner hypot fuel msg self Hmove Hd).
  destruct (target_direction_total fuel (num_of_sides (_param self)) (_turn_count self)
              Hfuel ltac:(lia) Hn) as (fn & fk & t & _ & _ & _ & -> & _).
  assert (Hnot : (_turn_count self <? num_of_sides (_param self) - 1) = false)
    by (apply Z.ltb_ge; lia).
  rewrite Hnot, andb_false_r.
  replace (_turn_count self + 1) with (num_of_sides (_param self)) by lia.
  cbn [fst snd].
  split; [reflexivity | ]. split; [reflexivity | ]. split; [reflexivity | ].
  split; [reflexivity | ]. split; [fields; lia | ].
  repeat split.
Qed.

(** C4. Go-straight phase: in a state that is not terminal and has a
    reference pose, a pose nearer to it than [length_of_side] makes the
    update return normally and publish one command, the [Twist] with
    [linear.x = velocity] and the five other fields zero, which is
    [{linear: velocity, angular: 0}]; the counter, the reference pose, the
    configuration and the speeds are as they were, and the pose of the
    message is the latest pose. *)
Theorem go_straight_phase (fuel : nat) (msg ref : Pose)
    (self : TurtlesimController) :
  _turn_count self < num_of_sides (_param self) ->
  _prev_turn_pose self = Some ref ->
  (distance hypot ref msg <? length_of_side (_param self))%float = true ->
  let self' := snd (_pose_callback hypot fuel msg self) in
  _pose_callback hypot fuel msg self
  = (Ok tt, push_cmd_vel (VelocityCommand (velocity (_turtle self)) 0)
              (set_pose (Some msg) self)) /\
  fst (_pose_callback hypot fuel msg self) = Ok tt /\
  (exists cmd : Twist,
      _cmd_vel_pub self' = _cmd_vel_pub self ++ [cmd] /\
      linear cmd = mkVector3 (velocity (_turtle self)) 0 0 /\
      angular cmd = mkVector3 0 0 0) /\
  _turn_count self' = _turn_count self /\
  _prev_turn_pose self' = _prev_turn_pose self /\
  _prev_turn_pose self' = Some ref /\
  pose (_turtle self') = Some msg /\
  _param self' = _param self /\
  velocity (_turtle self') = velocity (_turtle self) /\
  yawrate (_turtle self') = yawrate (_turtle self).
Proof.
  intros Hmove Href Hd. cbv zeta.
  apply Z.ltb_lt in Hmove.
  assert (Hr : reference_pose self msg = ref) by (unfold reference_pose; now rewrite Href).
  rewrite <- Hr in Hd.
  rewrite (callback_straight hypot fuel msg self Hmove Hd), Hr.
  cbn [fst snd].
  split; [unfold at_update, set_prev_turn_pose, set_pose; cbn; rewrite <- Href; reflexivity | ].
  split; [reflexivity | ].
  split; [eexists; split; [reflexivity | split; reflexivity] | ].
  split; [reflexivity | ].
  split; [fields; symmetry; exact Href | ].
  repeat split.
Qed.

(** C5. Turn-in-place phase: in a state that is not terminal and has a
    reference pose, with the pose not nearer to it than [length_of_side],
    the target direction is computed, and when the heading is further from
    it than [turn_direction_th] and [turn_count < num_of_sides - 1], the
    update returns normally and publishes one command, the [Twist] with
    [angular.z = yawrate] and the five other fields zero, which is
    [{linear: 0, angular: yawrate}]; the counter, the reference pose, the
    configuration and the speeds are as they were, and the pose of the
    message is the latest pose.  The counter is not negative, the side
    count is below [2^53], and the loop has fuel for one turn. *)
Theorem turn_in_place_phase (fuel : nat) (msg ref : Pose)
    (self : TurtlesimController) :
  (1 <= fuel)%nat ->
  0 <= _turn_count self ->
  _turn_count self < num_of_sides (_param self) - 1 ->
  num_of_sides (_param self) < 2 ^ 53 ->
  _prev_turn_pose self = Some ref ->
  (distance hypot ref msg <? length_of_side (_param self))%float = false ->
  exists target : float,
    _calc_target_direction fuel (Some msg) (_turn_count self)
      (set_pose (Some msg) self)
    = (Ok target, set_pose (Some msg) self) /\
    ((turn_direction_th (_param self) <? abs (target - theta msg))%float = true ->
     let self' := snd (_pose_callback hypot fuel msg self) in
     _pose_callback hypot fuel msg self
     = (Ok tt, push_cmd_vel (VelocityCommand 0 (yawrate (_turtle self)))
                 (set_pose (Some msg) self)) /\
     fst (_pose_callback hypot fuel msg self) = Ok tt /\
     (exists cmd : Twist,
         _cmd_vel_pub self' = _cmd_vel_pub self ++ [cmd] /\
         linear cmd = mkVector3 0 0 0 /\
         angular cmd = mkVector3 0 0 (yawrate (_turtle self))) /\
     _turn_count self' = _turn_count self /\
     _prev_turn_pose self' = _prev_turn_pose self /\
     _prev_turn_pose self' = Some ref /\
     pose (_turtle self') = Some msg /\
     _param self' = _param self /\
     velocity (_turtle self') = velocity (_turtle self) /\
     yawrate (_turtle self') = yawrate (_turtle self)).
Proof.
  intros Hfuel Htc Hlt Hn Href Hd.
  assert (Hmove : (_turn_count self <? num_of_sides (_param self)) = true)
    by (apply Z.ltb_lt; lia).
  assert (Hr : reference_pose self msg = ref) by (unfold reference_pose; now rewrite Href).
  rewrite <- Hr in Hd.
  destruct (target_direction_total fuel (num_of_sides (_param self)) (_turn_count self)
              Hfuel ltac:(lia) Hn) as (fn & fk & t & _ & _ & _ & Ht & _).
  exists t. split.
  - rewrite calc_target_direction_eq. fields. rewrite Ht. reflexivity.
  - intros Herr. cbv zeta.
    rewrite (callback_corner hypot fuel msg self Hmove Hd), Ht, Herr, Hr.
    apply Z.ltb_lt in Hlt. rewrite Hlt. cbn [andb fst snd].
    split; [unfold at_update, set_prev_turn_pose, set_pose; cbn; rewrite <- Href;
            reflexivity | ].
    split; [reflexivity | ].
    split; [eexists; split; [reflexivity | split; reflexivity] | ].
    split; [reflexivity | ].
    split; [fields; symmetry; exact Href | ].
    repeat split.
Qed.

(** C6. Corner completion and reference recapture: when the pose is not
    nearer to the reference pose than [length_of_side], the target direction
    is computed, and when the condition to turn does not hold the update
    returns normally, adds exactly 1 to the counter, clears the reference
    pose and publishes one command, the [Twist] whose six fields are zero;
    the configuration and the speeds are as they were.  On the next update
    the pose of that update is the reference pose and the distance from it
    is 0; when a side is still to be driven, that update runs exactly as
    from the state with its own pose recorded as the reference pose,
    [_calc_distance] returns 0 in that state, and for a positive
    [length_of_side] the update ends with that pose recorded as the
    reference pose, the counter as the corner left it, and the command to
    go straight published after the zero command.  The next pose is of
    finite coordinates and [math.hypot(0, 0)] is 0; the counter is not
    negative, the side count is below [2^53], and the loop has fuel for one
    turn. *)
Theorem corner_completion_and_recapture (fuel : nat) (msg msg' : Pose)
    (self : TurtlesimController) :
  (1 <= fuel)%nat ->
  0 <= _turn_count self < num_of_sides (_param self) ->
  num_of_sides (_param self) < 2 ^ 53 ->
  (distance hypot (reference_pose self msg) msg
   <? length_of_side (_param self))%float = false ->
  finite_pose msg' ->
  hypot 0 0 = 0%float ->
  exists target : float,
    _calc_target_direction fuel (Some msg) (_turn_count self)
      (at_update (reference_pose self msg) msg self)
    = (Ok target, at_update (reference_pose self msg) msg self) /\
    ((turn_direction_th (_param self) <? abs (target - theta msg))%float
     && (_turn_count self <? num_of_sides (_param self) - 1) = false ->
     let self' := push_cmd_vel (VelocityCommand 0 0)
                    (set_prev_turn_pose None
                       (set_turn_count (_turn_count self + 1)
                          (set_pose (Some msg) self))) in
     _pose_callback hypot fuel msg self = (Ok tt, self') /\
     _turn_count self' = _turn_count self + 1 /\
     _prev_turn_pose self' = None /\
     _cmd_vel_pub self'
     = _cmd_vel_pub self ++ [mkTwist (mkVector3 0 0 0) (mkVector3 0 0 0)] /\
     pose (_turtle self') = Some msg /\
     _param self' = _param self /\
     velocity (_turtle self') = velocity (_turtle self) /\
     yawrate (_turtle self') = yawrate (_turtle self) /\
     reference_pose self' msg' = msg' /\
     distance hypot (reference_pose self' msg') msg' = 0%float /\
     (_turn_count self + 1 < num_of_sides (_param self) ->
      let recaptured := set_prev_turn_pose (Some msg') (set_pose (Some msg') self') in
      _pose_callback hypot fuel msg' self'
      = _pose_callback hypot fuel msg' (set_prev_turn_pose (Some msg') self') /\
      _prev_turn_pose recaptured = Some msg' /\
      pose (_turtle recaptured) = Some msg' /\
      _calc_distance hypot (_prev_turn_pose recaptured) (pose (_turtle recaptured))
        recaptured
      = (Ok 0%float, recaptured) /\
      ((0 <? length_of_side (_param self))%float = true ->
       let self'' := snd (_pose_callback hypot fuel msg' self') in
       _pose_callback hypot fuel msg' self'
       = (Ok tt, push_cmd_vel (VelocityCommand (velocity (_turtle self)) 0)
                   (set_prev_turn_pose (Some msg') (set_pose (Some msg') self'))) /\
       fst (_pose_callback hypot fuel msg' self') = Ok tt /\
       _prev_turn_pose self'' = Some msg' /\
       pose (_turtle self'') = Some msg' /\
       _turn_count self'' = _turn_count self + 1 /\
       _cmd_vel_pub self''
       = _cmd_vel_pub self
         ++ [mkTwist (mkVector3 0 0 0) (mkVector3 0 0 0);
             mkTwist (mkVector3 (velocity (_turtle self)) 0 0) (mkVector3 0 0 0)]))).
Proof.
  intros Hfuel Htc Hn Hd Hfin H0.
  assert (Hmove : (_turn_count self <? num_of_sides (_param self)) = true)
    by (apply Z.ltb_lt; lia).
  destruct (target_direction_total fuel (num_of_sides (_param self)) (_turn_count self)
              Hfuel Htc Hn) as (fn & fk & t & _ & _ & _ & Ht & _).
  exists t. split.
  - rewrite calc_target_direction_eq. fields. rewrite Ht. reflexivity.
  - intros Hturn. cbv zeta.
    set (self' := push_cmd_vel (VelocityCommand 0 0)
                    (set_prev_turn_pose None
                       (set_turn_count (_turn_count self + 1)
                          (set_pose (Some msg) self)))).
    assert (Hself' : _pose_callback hypot fuel msg self = (Ok tt, self')).
    { rewrite (callback_corner hypot fuel msg self Hmove Hd), Ht, Hturn. reflexivity. }
    assert (Hdist : distance hypot (reference_pose self' msg') msg' = 0%float)
      by (apply distance_self; assumption).
    split; [exact Hself' | ]. split; [reflexivity | ]. split; [reflexivity | ].
    split; [reflexivity | ]. split; [reflexivity | ]. split; [reflexivity | ].
    split; [reflexivity | ]. split; [reflexivity | ].
    split; [reflexivity | ]. split; [exact Hdist | ].
    intros Hnext.
    assert (Hmove' : (_turn_count self' <? num_of_sides (_param self')) = true)
      by (apply Z.ltb_lt; subst self'; fields; lia).
    split; [ | split; [reflexivity | split; [reflexivity | split]]].
    + destruct (distance hypot (reference_pose self' msg') msg'
                <? length_of_side (_param self'))%float eqn:Hd'.
      * rewrite (callback_straight hypot fuel msg' self' Hmove' Hd').
        rewrite (callback_straight hypot fuel msg'
                   (set_prev_turn_pose (Some msg') self') Hmove' Hd').
        reflexivity.
      * rewrite (callback_corner hypot fuel msg' self' Hmove' Hd').
        rewrite (callback_corner hypot fuel msg'
                   (set_prev_turn_pose (Some msg') self') Hmove' Hd').
        reflexivity.
    + fields. unfold _calc_distance, attr, bind, ret.
      fold (distance hypot msg' msg').
      rewrite (distance_self hypot msg' Hfin H0). reflexivity.
    + intros Hlen.
      assert (Hd' : (distance hypot (reference_pose self' msg') msg'
                     <? length_of_side (_param self'))%float = true)
        by (rewrite Hdist; exact Hlen).
      rewrite (callback_straight hypot fuel msg' self' Hmove' Hd').
      cbn [fst snd].
      split; [reflexivity | ]. split; [reflexivity | ]. split; [reflexivity | ].
      split; [reflexivity | ]. split; [reflexivity | ].
      subst self'. fields. rewrite <- app_assoc. reflexivity.
Qed.

(** C7. Target direction: for [3 <= num_of_sides] (below [2^53], so that
    the conversion to a float is exact) and [0 <= turn_count <
    num_of_sides], [_calc_target_direction] returns
    [2 pi / num_of_sides * (turn_count + 1)] with [2 pi] subtracted while
    the value exceeds [pi], and the result lies in (-pi, pi]: the quotient
    and the product are those of binary64, taken on the float [fn] that is
    [num_of_sides] exactly and on the float [fk] that is [turn_count + 1]
    exactly (there is one such float for each, [exact_float_unique]; it is
    what the conversion of the machine, [of_uint63], gives for the
    integer, and what [float] returns for it).  Nothing is ever added: a
    value that does not exceed [pi] is returned as it is. *)
Theorem target_direction_normalized (fuel : nat) (p : option Pose) (c : Z)
    (self : TurtlesimController) :
  (1 <= fuel)%nat ->
  3 <= num_of_sides (_param self) ->
  num_of_sides (_param self) < 2 ^ 53 ->
  0 <= _turn_count self < num_of_sides (_param self) ->
  (exists fn fk target : float,
      exact_float (num_of_sides (_param self)) fn /\
      exact_float (_turn_count self + 1) fk /\
      fn = of_uint63 (Uint63.of_Z (num_of_sides (_param self))) /\
      fk = of_uint63 (Uint63.of_Z (_turn_count self + 1)) /\
      float_of_int (num_of_sides (_param self)) = Ok fn /\
      float_of_int (_turn_count self + 1) = Ok fk /\
      wraps_down (2.0 * math_pi / fn * fk)%float target /\
      _calc_target_direction fuel p c self = (Ok target, self) /\
      (- math_pi <? target)%float = true /\
      (target <=? math_pi)%float = true) /\
  (forall (fuel' : nat) (t : float),
      (math_pi <? t)%float = false -> while_pi_lt fuel' t = Ok t).
Proof.
  intros Hfuel H3 Hn Htc. split.
  - destruct (target_direction_total fuel (num_of_sides (_param self)) (_turn_count self)
                Hfuel Htc Hn) as (fn & fk & t & Hfn & Hfk & Hw & Ht & (_ & Hle & Hgt)).
    exists fn, fk, t. rewrite calc_target_direction_eq, Ht.
    split; [apply float_of_int_is_exact; [lia | exact Hfn] | ].
    split; [apply float_of_int_is_exact; [lia | exact Hfk] | ].
    assert (H63 : 2 ^ 53 < 2 ^ 63) by reflexivity.
    split; [apply float_of_int_of_uint63; [lia | exact Hfn] | ].
    split; [apply float_of_int_of_uint63; [lia | exact Hfk] | ].
    auto 8.
  - intros fuel' t Ht. apply while_pi_lt_done. exact Ht.
Qed.

(** C8. The counter: in every state reached from the constructed object
    under a valid configuration, [0 <= turn_count <= num_of_sides]; and an
    update, whatever it returns, leaves the counter as it was or adds
    exactly 1 to it. *)
Theorem turn_count_invariant (ps : ParamServer) (self : TurtlesimController) :
  valid_config (config_of ps) ->
  reachable hypot ps self ->
  0 <= _turn_count self <= num_of_sides (_param self) /\
  (forall (fuel : nat) (msg : Pose),
      let self' := snd (_pose_callback hypot fuel msg self) in
      _turn_count self' = _turn_count self \/
      _turn_count self' = _turn_count self + 1).
Proof.
  intros (H3 & _ & _) Hr.
  destruct (reachable_inv hypot ps self Hr) as (Hp & H0 & Hle).
  rewrite Hp. split; [lia | ].
  intros fuel msg. cbv zeta.
  destruct (callback_cases hypot fuel msg self) as (_ & _ & _ & [H | [H _]]); auto.
Qed.

(** C9. Totality of the update: in every state of a run whose side count is
    below [2^53], and for every pose, the update returns normally (no
    exception, the loop done within one turn) and publishes exactly one
    command, one of the three of the controller; and whenever a side is
    still to be driven the target direction is computed without exception
    within one turn of the loop. *)
Theorem pose_update_total (ps : ParamServer) (fuel : nat) (msg : Pose)
    (self : TurtlesimController) :
  reachable hypot ps self ->
  num_of_sides (config_of ps) < 2 ^ 53 ->
  (1 <= fuel)%nat ->
  (exists (self' : TurtlesimController) (cmd : Twist),
      _pose_callback hypot fuel msg self = (Ok tt, self') /\
      _cmd_vel_pub self' = _cmd_vel_pub self ++ [cmd] /\
      command_of self cmd) /\
  (_turn_count self < num_of_sides (_param self) ->
   exists target : float,
     _calc_target_direction fuel (Some msg) (_turn_count self) self
     = (Ok target, self)).
Proof.
  intros Hr Hn Hfuel.
  destruct (reachable_inv hypot ps self Hr) as (Hp & H0 & _).
  rewrite <- Hp in Hn. split.
  - apply callback_total; assumption.
  - intros Hmove.
    destruct (target_direction_total fuel (num_of_sides (_param self)) (_turn_count self)
                Hfuel (conj H0 Hmove) Hn) as (fn & fk & t & _ & _ & _ & Ht & _).
    exists t. rewrite calc_target_direction_eq, Ht. reflexivity.
Qed.

(** C10. The target direction does not depend on the pose, nor on the turn
    count, passed to [_calc_target_direction]: the result is the same for
    any two pairs of arguments, and is a function of [num_of_sides] and of
    the counter of the controller alone. *)
Theorem target_direction_pose_independent (fuel : nat) (p1 p2 : option Pose)
    (c1 c2 : Z) (self : TurtlesimController) :
  _calc_target_direction fuel p1 c1 self = _calc_target_direction fuel p2 c2 self /\
  _calc_target_direction fuel p1 c1 self
  = (target_direction fuel (num_of_sides (_param self)) (_turn_count self), self).
Proof.
  split; [reflexivity | apply calc_target_direction_eq].
Qed.


End Spec.

(** ** The claims on the triangle of the default parameters *)

(** With the three corners done, two more poses add two zero commands. *)
Lemma terminal_stability_witness :
  _cmd_vel_pub (process hypot_sqrt 1 [pose_at 1 0 0; pose_at 2 0 0] (on_side 3))
  = _cmd_vel_pub (on_side 3) ++ [VelocityCommand 0 0; VelocityCommand 0 0].
Proof.
  destruct (terminal_stability hypot_sqrt 1 [pose_at 1 0 0; pose_at 2 0 0] (on_side 3))
    as [_ H].
  - cbn. lia.
  - cbv zeta in H. destruct H as (_ & _ & _ & _ & _ & H). exact H.
Defined.

(** At the last corner with a heading 1.5 away from every target: the run
    completes with the zero command. *)
Lemma last_corner_exemption_witness :
  let self' := snd (_pose_callback hypot_sqrt 1 (pose_at 1 0 1.5) (on_side 2)) in
  fst (_pose_callback hypot_sqrt 1 (pose_at 1 0 1.5) (on_side 2)) = Ok tt /\
  _cmd_vel_pub self'
  = _cmd_vel_pub (on_side 2) ++ [mkTwist (mkVector3 0 0 0) (mkVector3 0 0 0)] /\
  _turn_count self' = 3 /\
  _prev_turn_pose self' = None /\
  pose (_turtle self') = Some (pose_at 1 0 1.5).
Proof.
  cbv zeta.
  destruct (last_corner_exemption hypot_sqrt 1 (pose_at 1 0 1.5) (on_side 2))
    as (_ & H1 & H2 & H3 & _ & H4 & H5 & _).
  - lia.
  - cbn. lia.
  - reflexivity.
  - cbn. lia.
  - vm_compute. reflexivity.
  - split; [exact H1 | ]. split; [exact H2 | ]. split; [exact H3 | ].
    split; [exact H4 | exact H5].
Defined.

(** Half way along the first side. *)
Lemma go_straight_phase_witness :
  let self' := snd (_pose_callback hypot_sqrt 1 (pose_at 0.5 0 0) (on_side 0)) in
  fst (_pose_callback hypot_sqrt 1 (pose_at 0.5 0 0) (on_side 0)) = Ok tt /\
  (exists cmd : Twist,
      _cmd_vel_pub self' = _cmd_vel_pub (on_side 0) ++ [cmd] /\
      linear cmd = mkVector3 0.5 0 0 /\
      angular cmd = mkVector3 0 0 0) /\
  _turn_count self' = 0 /\
  _prev_turn_pose self' = Some (pose_at 0 0 0).
Proof.
  cbv zeta.
  destruct (go_straight_phase hypot_sqrt 1 (pose_at 0.5 0 0) (pose_at 0 0 0) (on_side 0))
    as (_ & H1 & H2 & H3 & _ & H4 & _).
  - cbn. lia.
  - reflexivity.
  - vm_compute. reflexivity.
  - split; [exact H1 | ]. split; [exact H2 | ]. split; [exact H3 | exact H4].
Defined.

(** At the end of the first side, heading along it: the scenario of the
    specification, which ends in [{0, 0.3}]. *)
Lemma turn_in_place_phase_witness :
  let self' := snd (_pose_callback hypot_sqrt 1 (pose_at 1 0 0) (on_side 0)) in
  fst (_pose_callback hypot_sqrt 1 (pose_at 1 0 0) (on_side 0)) = Ok tt /\
  (exists cmd : Twist,
      _cmd_vel_pub self' = _cmd_vel_pub (on_side 0) ++ [cmd] /\
      linear cmd = mkVector3 0 0 0 /\
      angular cmd = mkVector3 0 0 float_0_3) /\
  _turn_count self' = 0 /\
  _prev_turn_pose self' = Some (pose_at 0 0 0).
Proof.
  cbv zeta.
  destruct (turn_in_place_phase hypot_sqrt 1 (pose_at 1 0 0) (pose_at 0 0 0) (on_side 0))
    as (target & Ht & H).
  - lia.
  - cbn. lia.
  - cbn. lia.
  - cbn. lia.
  - reflexivity.
  - vm_compute. reflexivity.
  - vm_compute in Ht. injection Ht as <-.
    destruct H as (_ & H1 & H2 & H3 & _ & H4 & _); [vm_compute; reflexivity | ].
    split; [exact H1 | ]. split; [exact H2 | ]. split; [exact H3 | exact H4].
Defined.

(** At the end of the first side with the heading on the target [2 pi / 3]:
    the corner is complete, and the next pose starts the second side. *)
Lemma corner_completion_and_recapture_witness :
  let msg := pose_at 1 0 (2.0 * math_pi / 3) in
  let self' := snd (_pose_callback hypot_sqrt 1 msg (on_side 0)) in
  let self'' := snd (_pose_callback hypot_sqrt 1 msg self') in
  fst (_pose_callback hypot_sqrt 1 msg (on_side 0)) = Ok tt /\
  _turn_count self' = 1 /\
  _prev_turn_pose self' = None /\
  _cmd_vel_pub self'
  = _cmd_vel_pub (on_side 0) ++ [mkTwist (mkVector3 0 0 0) (mkVector3 0 0 0)] /\
  distance hypot_sqrt (reference_pose self' msg) msg = 0%float /\
  fst (_pose_callback hypot_sqrt 1 msg self') = Ok tt /\
  _prev_turn_pose self'' = Some msg /\
  _turn_count self'' = 1 /\
  _cmd_vel_pub self''
  = _cmd_vel_pub (on_side 0)
    ++ [mkTwist (mkVector3 0 0 0) (mkVector3 0 0 0);
        mkTwist (mkVector3 0.5 0 0) (mkVector3 0 0 0)].
Proof.
  cbv zeta.
  destruct (corner_completion_and_recapture hypot_sqrt 1
              (pose_at 1 0 (2.0 * math_pi / 3)) (pose_at 1 0 (2.0 * math_pi / 3))
              (on_side 0))
    as (target & Ht & H).
  - lia.
  - cbn. lia.
  - cbn. lia.
  - vm_compute. reflexivity.
  - split; vm_compute; reflexivity.
  - vm_compute. reflexivity.
  - vm_compute in Ht. injection Ht as <-.
    destruct H as (E & H1 & H2 & H3 & _ & _ & _ & _ & _ & H4 & H5);
      [vm_compute; reflexivity | ].
    destruct H5 as (_ & _ & _ & _ & H5); [cbn; lia | ].
    destruct H5 as (_ & H6 & H7 & _ & H8 & H9); [vm_compute; reflexivity | ].
    rewrite E. cbn [fst snd].
    split; [reflexivity | ]. split; [exact H1 | ]. split; [exact H2 | ].
    split; [exact H3 | ]. split; [exact H4 | ]. split; [exact H6 | ].
    split; [exact H7 | ]. split; [exact H8 | exact H9].
Defined.

(** The first target of the triangle: the floats are 3 and 1, and the
    target is what is left of [2 pi / 3 * 1]. *)
Lemma target_direction_normalized_witness :
  exact_float 3 3%float /\
  exact_float 1 1%float /\
  exists target : float,
    wraps_down (2.0 * math_pi / 3 * 1)%float target /\
    _calc_target_direction 1 None 7 (on_side 0) = (Ok target, on_side 0) /\
    (- math_pi <? target)%float = true /\
    (target <=? math_pi)%float = true.
Proof.
  destruct (target_direction_normalized 1 None 7 (on_side 0))
    as [(fn & fk & target & Xn & Xk & En & Ek & _ & _ & H) _].
  - lia.
  - cbn. lia.
  - cbn. lia.
  - cbn. lia.
  - vm_compute in En, Ek. subst fn fk.
    split; [exact Xn | ]. split; [exact Xk | ].
    exists target. exact H.
Defined.

(** The state after the first pose of a run on the default parameters. *)
Lemma turn_count_invariant_witness :
  let self := snd (_pose_callback hypot_sqrt 1 (pose_at 0 0 0) triangle) in
  0 <= _turn_count self <= num_of_sides (_param self) /\
  (forall (fuel : nat) (msg : Pose),
      let self' := snd (_pose_callback hypot_sqrt fuel msg self) in
      _turn_count self' = _turn_count self \/
      _turn_count self' = _turn_count self + 1).
Proof.
  cbv zeta.
  apply (turn_count_invariant hypot_sqrt no_params).
  - split; [cbn; lia | split; vm_compute; reflexivity].
  - apply reachable_callback. apply reachable_init. reflexivity.
Defined.

Lemma pose_update_total_witness :
  exists (self' : TurtlesimController) (cmd : Twist),
    _pose_callback hypot_sqrt 1 (pose_at 0 0 0) triangle = (Ok tt, self') /\
    _cmd_vel_pub self' = _cmd_vel_pub triangle ++ [cmd] /\
    command_of triangle cmd.
Proof.
  destruct (pose_update_total hypot_sqrt no_params 1 (pose_at 0 0 0) triangle) as [H _].
  - apply reachable_init. reflexivity.
  - cbn. lia.
  - lia.
  - exact H.
Defined.


(** * Further properties of the controller *)

Section History.

Variable hypot : float -> float -> float.

(** The five ways an update can go. *)
Lemma callback_shape (fuel : nat) (msg : Pose) (self : TurtlesimController) :
  let ref := reference_pose self msg in
  _pose_callback hypot fuel msg self
  = (Ok tt, push_cmd_vel (VelocityCommand 0 0) (set_pose (Some msg) self)) /\
  num_of_sides (_param self) <= _turn_count self
  \/
  _pose_callback hypot fuel msg self
  = (Ok tt, push_cmd_vel (VelocityCommand (velocity (_turtle self)) 0)
              (at_update ref msg self)) /\
  _turn_count self < num_of_sides (_param self) /\
  (distance hypot ref msg <? length_of_side (_param self))%float = true
  \/
  _pose_callback hypot fuel msg self
  = (Ok tt, push_cmd_vel (VelocityCommand 0 (yawrate (_turtle self)))
              (at_update ref msg self)) /\
  _turn_count self < num_of_sides (_param self) - 1 /\
  (distance hypot ref msg <? length_of_side (_param self))%float = false
  \/
  _pose_callback hypot fuel msg self
  = (Ok tt, push_cmd_vel (VelocityCommand 0 0)
              (set_prev_turn_pose None
                 (set_turn_count (_turn_count self + 1) (at_update ref msg self)))) /\
  _turn_count self < num_of_sides (_param self) /\
  (distance hypot ref msg <? length_of_side (_param self))%float = false
  \/
  (exists r : result unit,
      r <> Ok tt /\
      _pose_callback hypot fuel msg self = (r, at_update ref msg self)) /\
  _turn_count self < num_of_sides (_param self) /\
  (distance hypot ref msg <? length_of_side (_param self))%float = false.
Proof.
  cbv zeta.
  destruct (_turn_count self <? num_of_sides (_param self)) eqn:Hmove.
  - destruct (distance hypot (reference_pose self msg) msg
              <? length_of_side (_param self))%float eqn:Hd.
    + right; left. rewrite (callback_straight hypot fuel msg self Hmove Hd).
      apply Z.ltb_lt in Hmove. auto.
    + rewrite (callback_corner hypot fuel msg self Hmove Hd).
      apply Z.ltb_lt in Hmove.
      destruct (target_direction fuel (num_of_sides (_param self)) (_turn_count self))
        as [t | e | ].
      * destruct (turn_direction_th (_param self) <? abs (t - theta msg))%float;
          cbn [andb]; [ | right; right; right; left; auto].
        destruct (_turn_count self <? num_of_sides (_param self) - 1) eqn:Hlast.
        -- right; right; left. apply Z.ltb_lt in Hlast. auto.
        -- right; right; right; left. auto.
      * right; right; right; right. split; [ | auto].
        exists (Raise e). split; [discriminate | reflexivity].
      * right; right; right; right. split; [ | auto].
        exists OutOfFuel. split; [discriminate | reflexivity].
  - left. rewrite (callback_terminal hypot fuel msg self Hmove).
    apply Z.ltb_ge in Hmove. auto.
Qed.

(** What one update adds to what was published. *)
Lemma callback_published (fuel : nat) (msg : Pose) (self : TurtlesimController) :
  let self' := snd (_pose_callback hypot fuel msg self) in
  (fst (_pose_callback hypot fuel msg self) = Ok tt /\
   exists cmd : Twist,
     _cmd_vel_pub self' = _cmd_vel_pub self ++ [cmd] /\ command_of self cmd) \/
  (fst (_pose_callback hypot fuel msg self) <> Ok tt /\
   _cmd_vel_pub self' = _cmd_vel_pub self).
Proof.
  cbv zeta. unfold command_of.
  destruct (callback_shape fuel msg self)
    as [[E _] | [[E _] | [[E _] | [[E _] | [(r & Hr & E) _]]]]]; rewrite E; cbn [fst snd].
  - left. split; [reflexivity | ]. eexists. split; [reflexivity | auto].
  - left. split; [reflexivity | ]. eexists. split; [reflexivity | auto].
  - left. split; [reflexivity | ]. eexists. split; [reflexivity | auto].
  - left. split; [reflexivity | ]. eexists. split; [reflexivity | auto].
  - right. split; [exact Hr | reflexivity].
Qed.

(** X1. Whatever the configuration and the poses, a run never touches what
    was published before it, publishes at most one command for each pose,
    and every command it publishes is one of the three of the controller:
    stop, straight at [velocity], or turn at [yawrate]. *)
Theorem published_history (fuel : nat) (msgs : list Pose)
    (self : TurtlesimController) :
  exists cmds : list Twist,
    _cmd_vel_pub (process hypot fuel msgs self) = _cmd_vel_pub self ++ cmds /\
    (length cmds <= length msgs)%nat /\
    Forall (command_of self) cmds.
Proof.
  revert self. induction msgs as [ | msg msgs IH]; intros self.
  - exists []. cbn. rewrite app_nil_r. auto.
  - cbn [process].
    destruct (IH (snd (_pose_callback hypot fuel msg self))) as (cmds & E & Hlen & Hall).
    destruct (callback_cases hypot fuel msg self) as (_ & Hv & Hw & _). cbv zeta in *.
    assert (Hsame : forall cmd,
               command_of (snd (_pose_callback hypot fuel msg self)) cmd ->
               command_of self cmd)
      by (intros cmd; unfold command_of; rewrite Hv, Hw; auto).
    assert (Hall' : Forall (command_of self) cmds)
      by (eapply Forall_impl; [exact Hsame | exact Hall]).
    destruct (callback_published fuel msg self)
      as [(_ & cmd & Hpub & Hcmd) | (_ & Hpub)]; cbv zeta in Hpub; rewrite E, Hpub.
    + exists (cmd :: cmds). rewrite <- app_assoc. cbn [app length].
      split; [reflexivity | ]. split; [lia | ]. constructor; assumption.
    + exists cmds. cbn [length]. split; [reflexivity | ]. split; [lia | assumption].
Qed.

(** X2. No run changes the configuration or the two speeds: the parameters
    read by [__init__] are the ones every later update works with. *)
Theorem configuration_is_constant (fuel : nat) (msgs : list Pose)
    (self : TurtlesimController) :
  let self' := process hypot fuel msgs self in
  _param self' = _param self /\
  velocity (_turtle self') = velocity (_turtle self) /\
  yawrate (_turtle self') = yawrate (_turtle self).
Proof.
  cbv zeta. revert self. induction msgs as [ | msg msgs IH]; intros self.
  - cbn. auto.
  - cbn [process].
    destruct (IH (snd (_pose_callback hypot fuel msg self))) as (H1 & H2 & H3).
    destruct (callback_cases hypot fuel msg self) as (Hp & Hv & Hw & _). cbv zeta in *.
    rewrite H1, H2, H3. auto.
Qed.

(** X3. With a counter that is not negative and a side count below [2^53],
    a run publishes exactly one command for each pose it is given, and every
    update of it returns normally. *)
Theorem one_command_per_pose (fuel : nat) (msgs : list Pose)
    (self : TurtlesimController) :
  (1 <= fuel)%nat ->
  0 <= _turn_count self ->
  num_of_sides (_param self) < 2 ^ 53 ->
  exists cmds : list Twist,
    _cmd_vel_pub (process hypot fuel msgs self) = _cmd_vel_pub self ++ cmds /\
    length cmds = length msgs /\
    Forall (command_of self) cmds.
Proof.
  intros Hfuel. revert self. induction msgs as [ | msg msgs IH]; intros self Htc Hn.
  - exists []. cbn. rewrite app_nil_r. auto.
  - cbn [process].
    destruct (callback_total hypot fuel msg self Hfuel Htc Hn) as (self' & cmd & E & Hpub & Hcmd).
    destruct (callback_cases hypot fuel msg self) as (Hp & Hv & Hw & Hstep). cbv zeta in *.
    rewrite E in *. cbn [snd] in *.
    destruct (IH self') as (cmds & E' & Hlen & Hall); [lia | rewrite Hp; exact Hn | ].
    exists (cmd :: cmds). rewrite E', Hpub, <- app_assoc. cbn [app length].
    split; [reflexivity | ]. split; [lia | ].
    constructor; [exact Hcmd | ].
    eapply Forall_impl; [ | exact Hall].
    intros c. unfold command_of. rewrite Hv, Hw. auto.
Qed.

(** X4. An update that does not return normally (an exception out of
    [_calc_target_direction], or no answer from its loop) publishes nothing
    and leaves the counter as it was; it has happened at a corner, and the
    controller is left with the pose of the message and with the reference
    pose the update measured from. *)
Theorem failed_update_publishes_nothing (fuel : nat) (msg : Pose)
    (self : TurtlesimController) :
  fst (_pose_callback hypot fuel msg self) <> Ok tt ->
  let self' := snd (_pose_callback hypot fuel msg self) in
  _cmd_vel_pub self' = _cmd_vel_pub self /\
  _turn_count self' = _turn_count self /\
  pose (_turtle self') = Some msg /\
  _prev_turn_pose self' = Some (reference_pose self msg) /\
  _turn_count self < num_of_sides (_param self) /\
  (distance hypot (reference_pose self msg) msg
   <? length_of_side (_param self))%float = false.
Proof.
  intros Hfail. cbv zeta.
  destruct (callback_shape fuel msg self)
    as [[E _] | [[E _] | [[E _] | [[E _] | [(r & Hr & E) (Hmove & Hd)]]]]];
    rewrite E in *; cbn [fst snd] in *; try (exfalso; apply Hfail; reflexivity).
  fields. auto 8.
Qed.

(** X5. The counter goes up only at the end of a side: when an update adds
    to the counter, it has returned normally, the pose was not nearer to the
    reference pose than [length_of_side], the command it published is the
    stop command, and it has cleared the reference pose. *)
Theorem counter_advances_with_a_stop (fuel : nat) (msg : Pose)
    (self : TurtlesimController) :
  _turn_count (snd (_pose_callback hypot fuel msg self)) <> _turn_count self ->
  let self' := snd (_pose_callback hypot fuel msg self) in
  fst (_pose_callback hypot fuel msg self) = Ok tt /\
  _turn_count self' = _turn_count self + 1 /\
  _cmd_vel_pub self' = _cmd_vel_pub self ++ [VelocityCommand 0 0] /\
  _prev_turn_pose self' = None /\
  _turn_count self < num_of_sides (_param self) /\
  (distance hypot (reference_pose self msg) msg
   <? length_of_side (_param self))%float = false.
Proof.
  cbv zeta.
  destruct (callback_shape fuel msg self)
    as [[E _] | [[E _] | [[E _] | [[E (Hmove & Hd)] | [(r & Hr & E) _]]]]];
    rewrite E; cbn [fst snd]; fields; intros Hne; try (exfalso; apply Hne; reflexivity).
  auto 8.
Qed.

(** X6. A turtle that does not move gets the same answer again: when an
    update has left the counter as it was, a second update with the same
    pose returns what the first returned, publishes what the first
    published, and leaves the counter and the reference pose as the first
    left them.  So the turn in place, and the order to go straight, are
    repeated for as long as the pose stays the same. *)
Theorem same_pose_same_answer (fuel : nat) (msg : Pose)
    (self : TurtlesimController) :
  _turn_count (snd (_pose_callback hypot fuel msg self)) = _turn_count self ->
  let self' := snd (_pose_callback hypot fuel msg self) in
  let self'' := snd (_pose_callback hypot fuel msg self') in
  fst (_pose_callback hypot fuel msg self') = fst (_pose_callback hypot fuel msg self) /\
  (exists cmds : list Twist,
      _cmd_vel_pub self' = _cmd_vel_pub self ++ cmds /\
      _cmd_vel_pub self'' = _cmd_vel_pub self' ++ cmds) /\
  _turn_count self'' = _turn_count self' /\
  _prev_turn_pose self'' = _prev_turn_pose self'.
Proof.
  cbv zeta.
  destruct (callback_shape fuel msg self)
    as [[E Hdone] | [[E (Hmove & Hd)] | [[E (Hlast & Hd)] | [[E _] | [(r & Hr & E) (Hmove & Hd)]]]]];
    rewrite E; cbn [fst snd]; intros Hsame.
  - (* the run is over *)
    rewrite callback_terminal by (fields; apply Z.ltb_ge; exact Hdone).
    cbn [fst snd]. split; [reflexivity | ].
    split; [exists [VelocityCommand 0 0]; split; reflexivity | ]. split; reflexivity.
  - (* straight on *)
    set (self' := push_cmd_vel _ _).
    assert (Hr : reference_pose self' msg = reference_pose self msg) by reflexivity.
    assert (Hmove' : (_turn_count self' <? num_of_sides (_param self')) = true)
      by (subst self'; fields; apply Z.ltb_lt; lia).
    assert (Hd' : (distance hypot (reference_pose self' msg) msg
                   <? length_of_side (_param self'))%float = true)
      by (rewrite Hr; exact Hd).
    rewrite (callback_straight hypot fuel msg self' Hmove' Hd').
    cbn [fst snd]. split; [reflexivity | ].
    split; [eexists; split; reflexivity | ]. split; reflexivity.
  - (* turning *)
    set (self' := push_cmd_vel _ _).
    assert (Hr : reference_pose self' msg = reference_pose self msg) by reflexivity.
    assert (Hmove' : (_turn_count self' <? num_of_sides (_param self')) = true)
      by (subst self'; fields; apply Z.ltb_lt; lia).
    assert (Hd' : (distance hypot (reference_pose self' msg) msg
                   <? length_of_side (_param self'))%float = false)
      by (rewrite Hr; exact Hd).
    pose proof (callback_corner hypot fuel msg self
                  ltac:(apply Z.ltb_lt; lia) Hd) as E1.
    pose proof (callback_corner hypot fuel msg self' Hmove' Hd') as E2.
    rewrite E in E1. rewrite E2. rewrite Hr.
    replace (_param self') with (_param self) by reflexivity.
    replace (_turn_count self') with (_turn_count self) by reflexivity.
    replace (yawrate (_turtle self')) with (yawrate (_turtle self)) by reflexivity.
    destruct (target_direction fuel (num_of_sides (_param self)) (_turn_count self))
      as [t | e | ]; [ | discriminate | discriminate].
    destruct ((turn_direction_th (_param self) <? abs (t - theta msg))%float
              && (_turn_count self <? num_of_sides (_param self) - 1)).
    + cbn [fst snd]. split; [reflexivity | ].
      split; [eexists; split; reflexivity | ]. split; reflexivity.
    + exfalso. revert E1. fields. intros E1. discriminate E1.
  - exfalso. revert Hsame. fields. lia.
  - (* the update failed *)
    set (self' := at_update _ _ _).
    assert (Hr' : reference_pose self' msg = reference_pose self msg) by reflexivity.
    assert (Hmove' : (_turn_count self' <? num_of_sides (_param self')) = true)
      by (subst self'; fields; apply Z.ltb_lt; lia).
    assert (Hd' : (distance hypot (reference_pose self' msg) msg
                   <? length_of_side (_param self'))%float = false)
      by (rewrite Hr'; exact Hd).
    pose proof (callback_corner hypot fuel msg self
                  ltac:(apply Z.ltb_lt; lia) Hd) as E1.
    pose proof (callback_corner hypot fuel msg self' Hmove' Hd') as E2.
    rewrite E in E1. rewrite E2. rewrite Hr'.
    replace (_param self') with (_param self) by reflexivity.
    replace (_turn_count self') with (_turn_count self) by reflexivity.
    destruct (target_direction fuel (num_of_sides (_param self)) (_turn_count self))
      as [t | e | ].
    + exfalso.
      destruct ((turn_direction_th (_param self) <? abs (t - theta msg))%float
                && (_turn_count self <? num_of_sides (_param self) - 1));
        injection E1 as E1 _; apply Hr; exact E1.
    + injection E1 as E1. subst r. cbn [fst snd]. split; [reflexivity | ].
      split; [exists []; rewrite !app_nil_r; split; reflexivity | ]. split; reflexivity.
    + injection E1 as E1. subst r. cbn [fst snd]. split; [reflexivity | ].
      split; [exists []; rewrite !app_nil_r; split; reflexivity | ]. split; reflexivity.
Qed.

End History.

Section Courses.

Variable hypot : float -> float -> float.

Lemma same_place_distance (r1 r2 m1 m2 : Pose) :
  same_place r1 r2 -> same_place m1 m2 ->
  distance hypot r1 m1 = distance hypot r2 m2.
Proof.
  intros (Hx & Hy & _) (Hx' & Hy' & _). unfold distance.
  now rewrite Hx, Hy, Hx', Hy'.
Qed.

Lemma same_course_reference (s1 s2 : TurtlesimController) (m1 m2 : Pose) :
  same_course s1 s2 -> same_place m1 m2 ->
  same_place (reference_pose s1 m1) (reference_pose s2 m2).
Proof.
  intros (_ & _ & _ & Hprev & _) Hm. unfold reference_pose.
  destruct (_prev_turn_pose s1), (_prev_turn_pose s2); cbn in Hprev; tauto.
Qed.

(** One update on two controllers on the same course, with two messages of
    the same place. *)
Lemma same_course_callback (fuel : nat) (m1 m2 : Pose)
    (s1 s2 : TurtlesimController) :
  same_place m1 m2 -> same_course s1 s2 ->
  fst (_pose_callback hypot fuel m1 s1) = fst (_pose_callback hypot fuel m2 s2) /\
  same_course (snd (_pose_callback hypot fuel m1 s1))
              (snd (_pose_callback hypot fuel m2 s2)).
Proof.
  intros Hm Hs.
  pose proof (same_course_reference s1 s2 m1 m2 Hs Hm) as Hr.
  pose proof (same_place_distance _ _ _ _ Hr Hm) as Hdist.
  destruct Hs as (Hp & Hv & Hw & Hprev & Htc & Hpub).
  destruct Hm as (Hx & Hy & Hth).
  destruct (_turn_count s1 <? num_of_sides (_param s1)) eqn:Hmove.
  - assert (Hmove2 : (_turn_count s2 <? num_of_sides (_param s2)) = true)
      by (rewrite <- Hp, <- Htc; exact Hmove).
    destruct (distance hypot (reference_pose s1 m1) m1
              <? length_of_side (_param s1))%float eqn:Hd.
    + assert (Hd2 : (distance hypot (reference_pose s2 m2) m2
                     <? length_of_side (_param s2))%float = true)
        by (rewrite <- Hp, <- Hdist; exact Hd).
      rewrite (callback_straight hypot fuel m1 s1 Hmove Hd).
      rewrite (callback_straight hypot fuel m2 s2 Hmove2 Hd2).
      cbn [fst snd]. split; [reflexivity | ].
      unfold same_course. fields. rewrite Hp, Hv, Hw, Htc, Hpub.
      repeat split; try reflexivity; apply Hr.
    + assert (Hd2 : (distance hypot (reference_pose s2 m2) m2
                     <? length_of_side (_param s2))%float = false)
        by (rewrite <- Hp, <- Hdist; exact Hd).
      rewrite (callback_corner hypot fuel m1 s1 Hmove Hd).
      rewrite (callback_corner hypot fuel m2 s2 Hmove2 Hd2).
      rewrite <- Hp, <- Htc, <- Hth, <- Hw.
      destruct (target_direction fuel (num_of_sides (_param s1)) (_turn_count s1))
        as [t | e | ].
      * destruct ((turn_direction_th (_param s1) <? abs (t - theta m1))%float
                  && (_turn_count s1 <? num_of_sides (_param s1) - 1));
          cbn [fst snd]; (split; [reflexivity | ]);
          unfold same_course; fields; rewrite ?Hp, ?Hv, ?Hw, ?Htc, ?Hpub;
          repeat split; try reflexivity; apply Hr.
      * cbn [fst snd]. split; [reflexivity | ].
        unfold same_course. fields. rewrite ?Hp, ?Hv, ?Hw, ?Htc, ?Hpub.
        repeat split; try reflexivity; apply Hr.
      * cbn [fst snd]. split; [reflexivity | ].
        unfold same_course. fields. rewrite ?Hp, ?Hv, ?Hw, ?Htc, ?Hpub.
        repeat split; try reflexivity; apply Hr.
  - assert (Hmove2 : (_turn_count s2 <? num_of_sides (_param s2)) = false)
      by (rewrite <- Hp, <- Htc; exact Hmove).
    rewrite (callback_terminal hypot fuel m1 s1 Hmove).
    rewrite (callback_terminal hypot fuel m2 s2 Hmove2).
    cbn [fst snd]. split; [reflexivity | ].
    unfold same_course. fields. rewrite ?Hp, ?Hv, ?Hw, ?Htc, ?Hpub.
    repeat split; try reflexivity; exact Hprev.
Qed.

(** X7. The controller does not look at the velocities a pose reports: two
    runs whose poses agree, message by message, on [x], [y] and [theta]
    publish the same commands and end on the same counter, whatever the
    fields [linear_velocity] and [angular_velocity] say. *)
Theorem reported_velocities_are_ignored (fuel : nat) (msgs1 msgs2 : list Pose)
    (self : TurtlesimController) :
  Forall2 same_place msgs1 msgs2 ->
  _cmd_vel_pub (process hypot fuel msgs1 self)
  = _cmd_vel_pub (process hypot fuel msgs2 self) /\
  _turn_count (process hypot fuel msgs1 self)
  = _turn_count (process hypot fuel msgs2 self).
Proof.
  intros Hall.
  assert (Hgen : forall s1 s2, same_course s1 s2 ->
             same_course (process hypot fuel msgs1 s1) (process hypot fuel msgs2 s2)).
  { induction Hall as [ | m1 m2 l1 l2 Hm Hl IH]; intros s1 s2 Hs.
    - exact Hs.
    - cbn [process]. apply IH. apply same_course_callback; assumption. }
  assert (Hrefl : same_course self self).
  { unfold same_course. repeat split; try reflexivity.
    destruct (_prev_turn_pose self); cbn; [repeat split | exact I]. }
  destruct (Hgen self self Hrefl) as (_ & _ & _ & _ & Htc & Hpub). auto.
Qed.

(** With no reference pose recorded, a side still to drive, a pose of finite
    coordinates and a positive [length_of_side]: the update records the
    pose and goes straight. *)
Lemma callback_recapture (fuel : nat) (msg : Pose) (self : TurtlesimController) :
  _prev_turn_pose self = None ->
  _turn_count self < num_of_sides (_param self) ->
  finite_pose msg -> hypot 0 0 = 0%float ->
  (0 <? length_of_side (_param self))%float = true ->
  _pose_callback hypot fuel msg self
  = (Ok tt, push_cmd_vel (VelocityCommand (velocity (_turtle self)) 0)
              (at_update msg msg self)).
Proof.
  intros Hprev Hmove Hfin H0 Hlen.
  assert (Hr : reference_pose self msg = msg) by (unfold reference_pose; now rewrite Hprev).
  rewrite (callback_straight hypot fuel msg self).
  - rewrite Hr. reflexivity.
  - apply Z.ltb_lt. exact Hmove.
  - rewrite Hr, (distance_self hypot msg Hfin H0). exact Hlen.
Qed.

Lemma callback_progress (fuel : nat) (msg : Pose) (self : TurtlesimController) :
  finite_pose msg -> hypot 0 0 = 0%float ->
  (0 <? length_of_side (_param self))%float = true ->
  progress (snd (_pose_callback hypot fuel msg self)) <= progress self + 1.
Proof.
  intros Hfin H0 Hlen. unfold progress.
  destruct (_prev_turn_pose self) as [r | ] eqn:Hprev.
  - destruct (callback_shape hypot fuel msg self)
      as [[E _] | [[E _] | [[E _] | [[E _] | [(r' & _ & E) _]]]]];
      rewrite E; fields; rewrite ?Hprev; lia.
  - destruct (Z.ltb_spec (_turn_count self) (num_of_sides (_param self))) as [Hmove | Hdone].
    + rewrite (callback_recapture fuel msg self Hprev Hmove Hfin H0 Hlen). fields. lia.
    + rewrite (callback_terminal hypot fuel msg self) by (apply Z.ltb_ge; exact Hdone).
      fields. rewrite Hprev. lia.
Qed.

(** X8. A side takes at least two poses: with a positive [length_of_side],
    poses of finite coordinates and [math.hypot(0, 0) = 0], the update that
    records the reference pose never ends the side, so a run of [k] poses
    from a controller without reference pose adds at most [k / 2] to the
    counter; from the constructed controller the counter after [k] poses is
    at most [k / 2]. *)
Theorem two_poses_for_a_side (fuel : nat) (msgs : list Pose)
    (self : TurtlesimController) :
  Forall finite_pose msgs ->
  hypot 0 0 = 0%float ->
  (0 <? length_of_side (_param self))%float = true ->
  _prev_turn_pose self = None ->
  2 * (_turn_count (process hypot fuel msgs self) - _turn_count self)
  <= Z.of_nat (length msgs).
Proof.
  intros Hall H0 Hlen Hprev.
  assert (Hgen : forall s, (0 <? length_of_side (_param s))%float = true ->
             progress (process hypot fuel msgs s) <= progress s + Z.of_nat (length msgs)).
  { clear self Hlen Hprev.
    induction Hall as [ | msg msgs Hfin Hrest IH]; intros s Hlen.
    - cbn. lia.
    - cbn [process length].
      pose proof (callback_progress fuel msg s Hfin H0 Hlen) as Hstep.
      destruct (callback_cases hypot fuel msg s) as (Hp & _). cbv zeta in Hp.
      specialize (IH (snd (_pose_callback hypot fuel msg s)) ltac:(rewrite Hp; exact Hlen)).
      lia. }
  specialize (Hgen self Hlen). unfold progress in Hgen. rewrite Hprev in Hgen.
  destruct (_prev_turn_pose (process hypot fuel msgs self)); lia.
Qed.

End Courses.

(** ** More of the arithmetic *)

Lemma shr_fexp_nonneg (m e : Z) (l : location) :
  0 <= m -> 0 <= shr_m (fst (shr_fexp prec emax m e l)).
Proof.
  intros Hm. unfold shr_fexp, shr.
  destruct (fexp prec emax (Zdigits2 m + e) - e) as [ | p | p]; cbn [fst].
  - now rewrite shr_record_of_loc_m.
  - rewrite iter_shr_1_m; rewrite shr_record_of_loc_m; [ | exact Hm].
    apply Z.div_pos; [exact Hm | apply Z.pow_pos_nonneg; lia].
  - now rewrite shr_record_of_loc_m.
Qed.

(** The rounding step never gives NaN on a mantissa that is not negative. *)
Lemma binary_round_aux_not_nan (s : bool) (m e : Z) (l : location) :
  0 <= m -> binary_round_aux prec emax s m e l <> S754_nan.
Proof.
  intros Hm. unfold binary_round_aux.
  pose proof (shr_fexp_nonneg m e l Hm) as H1.
  destruct (shr_fexp prec emax m e l) as [mrs' e']. cbn [fst] in H1.
  assert (H2 : 0 <= round_nearest_even (shr_m mrs') (loc_of_shr_record mrs'))
    by (destruct (round_nearest_even_cases (shr_m mrs') (loc_of_shr_record mrs')) as [-> | ->];
        lia).
  pose proof (shr_fexp_nonneg _ e' loc_Exact H2) as H3.
  destruct (shr_fexp prec emax _ e' loc_Exact) as [mrs'' e'']. cbn [fst] in H3.
  destruct (shr_m mrs'') as [ | p | p]; try lia.
  - discriminate.
  - destruct (e'' <=? emax - prec); discriminate.
Qed.

Lemma binary_normalize_not_nan (m e : Z) (sz : bool) :
  binary_normalize prec emax m e sz <> S754_nan.
Proof.
  destruct m as [ | p | p]; cbn [binary_normalize]; try discriminate;
    unfold binary_round;
    destruct (shl_align p e (fexp prec emax (Zpos (digits2_pos p) + e))) as [mz ez];
    apply binary_round_aux_not_nan; lia.
Qed.

(** A difference is NaN only when an operand is NaN or both are infinite. *)
Lemma SFsub_not_nan (a b : spec_float) :
  (exists s, a = S754_zero s) \/ (exists s m e, a = S754_finite s m e) ->
  b <> S754_nan ->
  SF64sub a b <> S754_nan.
Proof.
  intros Ha Hb. unfold SF64sub, SFsub.
  destruct Ha as [[sa ->] | (sa & ma & ea & ->)];
    destruct b as [sb | sb | | sb mb eb]; try congruence; try discriminate.
  - destruct sa, sb; discriminate.
  - apply binary_normalize_not_nan.
Qed.

(** A number in (-pi, pi] is zero or finite. *)
Lemma in_range_finite (t : float) :
  in_range t ->
  (exists s, Prim2SF t = S754_zero s) \/ (exists s m e, Prim2SF t = S754_finite s m e).
Proof.
  intros (_ & Hle & Hgt). revert Hle Hgt.
  rewrite leb_spec, ltb_spec, Prim2SF_math_pi, Prim2SF_neg_pi.
  destruct (Prim2SF t) as [s | s | | s m e]; intros Hle Hgt.
  - left. now exists s.
  - destruct s; cbn in Hle, Hgt; discriminate.
  - cbn in Hle. discriminate.
  - right. now exists s, m, e.
Qed.

Lemma is_nan_spec (a : float) : is_nan a = false -> Prim2SF a <> S754_nan.
Proof.
  unfold is_nan. rewrite eqb_spec. intros H E. rewrite E in H. cbn in H. discriminate.
Qed.

(** A negative number is below every absolute value. *)
Lemma negative_below_abs (th d : float) :
  (th <? 0)%float = true -> Prim2SF d <> S754_nan -> (th <? abs d)%float = true.
Proof.
  rewrite !ltb_spec, abs_spec.
  replace (Prim2SF 0) with (S754_zero false) by (vm_compute; reflexivity).
  destruct (Prim2SF th) as [s | s | | s m e]; cbn; try discriminate.
  - destruct s; try discriminate. intros _ Hd.
    destruct (Prim2SF d) as [s' | s' | | s' m' e']; cbn; congruence.
  - destruct s; try discriminate. intros _ Hd.
    destruct (Prim2SF d) as [s' | s' | | s' m' e']; cbn; congruence.
Qed.

Lemma sub_diag_in_range (t : float) : in_range t -> (t - t)%float = 0%float.
Proof.
  intros Ht. apply Prim2SF_inj. rewrite sub_spec.
  replace (Prim2SF 0) with (S754_zero false) by (vm_compute; reflexivity).
  destruct (in_range_finite t Ht) as [[s ->] | (s & m & e & ->)].
  - destruct s; reflexivity.
  - unfold SF64sub, SFsub. rewrite Z.sub_diag. reflexivity.
Qed.

Section Corners.

Variable hypot : float -> float -> float.

(** X9. The first pose of a side starts it: with no reference pose recorded
    (as after [__init__] and after every corner), a side still to drive, a
    positive [length_of_side] and a pose of finite coordinates, the update
    returns normally, records the pose as the reference pose and as the
    latest pose, and publishes one command, the [Twist] with
    [linear.x = velocity] and the five other fields zero; it neither turns
    nor counts a corner. *)
Theorem first_pose_starts_the_side (fuel : nat) (msg : Pose)
    (self : TurtlesimController) :
  _prev_turn_pose self = None ->
  _turn_count self < num_of_sides (_param self) ->
  finite_pose msg ->
  hypot 0 0 = 0%float ->
  (0 <? length_of_side (_param self))%float = true ->
  let self' := snd (_pose_callback hypot fuel msg self) in
  _pose_callback hypot fuel msg self
  = (Ok tt, push_cmd_vel (VelocityCommand (velocity (_turtle self)) 0)
              (set_prev_turn_pose (Some msg) (set_pose (Some msg) self))) /\
  fst (_pose_callback hypot fuel msg self) = Ok tt /\
  (exists cmd : Twist,
      _cmd_vel_pub self' = _cmd_vel_pub self ++ [cmd] /\
      linear cmd = mkVector3 (velocity (_turtle self)) 0 0 /\
      angular cmd = mkVector3 0 0 0) /\
  _prev_turn_pose self' = Some msg /\
  pose (_turtle self') = Some msg /\
  _turn_count self' = _turn_count self /\
  _param self' = _param self.
Proof.
  intros Hprev Hmove Hfin H0 Hlen. cbv zeta.
  rewrite (callback_recapture hypot fuel msg self Hprev Hmove Hfin H0 Hlen).
  cbn [fst snd].
  split; [reflexivity | ]. split; [reflexivity | ].
  split; [eexists; split; [reflexivity | split; reflexivity] | ].
  repeat split.
Qed.

(** X11. The loop of [_calc_target_direction] on any start value: an answer
    is what repeated subtraction of [2 pi] leaves, it does not exceed [pi],
    and it is the answer for every larger fuel too; conversely whatever
    repeated subtraction leaves is the answer from some fuel on. *)
Theorem loop_is_repeated_subtraction (t t' : float) :
  (forall fuel : nat,
      while_pi_lt fuel t = Ok t' ->
      wraps_down t t' /\
      (math_pi <? t')%float = false /\
      forall fuel' : nat, (fuel <= fuel')%nat -> while_pi_lt fuel' t = Ok t') /\
  (wraps_down t t' ->
   exists fuel : nat, while_pi_lt fuel t = Ok t').
Proof.
  split.
  - intros fuel. revert t.
    induction fuel as [ | fuel IH]; intros t; cbn [while_pi_lt];
      destruct (math_pi <? t)%float eqn:Hlt; try discriminate.
    + intros E. injection E as <-.
      split; [apply wraps_done; exact Hlt | ]. split; [exact Hlt | ].
      intros fuel' _. apply while_pi_lt_done. exact Hlt.
    + intros E. destruct (IH _ E) as (Hw & Hle & Hmono).
      split; [apply wraps_step; assumption | ]. split; [exact Hle | ].
      intros [ | fuel'] Hf; [lia | ].
      rewrite while_pi_lt_step by exact Hlt. apply Hmono. lia.
    + intros E. injection E as <-.
      split; [apply wraps_done; exact Hlt | ]. split; [exact Hlt | ].
      intros fuel' _. apply while_pi_lt_done. exact Hlt.
  - induction 1 as [t Hlt | t t' Hlt Hw [fuel IH]].
    + exists 0%nat. apply while_pi_lt_done. exact Hlt.
    + exists (S fuel). rewrite while_pi_lt_step by exact Hlt. exact IH.
Qed.

(** A corner before the last, under a negative threshold: the update turns,
    whatever heading (not NaN) the pose reports. *)
Lemma negative_threshold_turns (fuel : nat) (msg : Pose)
    (self : TurtlesimController) :
  (1 <= fuel)%nat ->
  0 <= _turn_count self < num_of_sides (_param self) - 1 ->
  num_of_sides (_param self) < 2 ^ 53 ->
  (turn_direction_th (_param self) <? 0)%float = true ->
  is_nan (theta msg) = false ->
  (distance hypot (reference_pose self msg) msg
   <? length_of_side (_param self))%float = false ->
  _pose_callback hypot fuel msg self
  = (Ok tt, push_cmd_vel (VelocityCommand 0 (yawrate (_turtle self)))
              (at_update (reference_pose self msg) msg self)).
Proof.
  intros Hfuel Htc Hn Hth Hnan Hd.
  rewrite (callback_corner hypot fuel msg self) by (try apply Z.ltb_lt; lia || assumption).
  destruct (target_direction_total fuel (num_of_sides (_param self)) (_turn_count self)
              Hfuel ltac:(lia) Hn) as (fn & fk & t & _ & _ & _ & -> & Hr).
  rewrite (negative_below_abs _ (t - theta msg) Hth).
  - replace (_turn_count self <? num_of_sides (_param self) - 1) with true
      by (symmetry; apply Z.ltb_lt; lia).
    reflexivity.
  - rewrite sub_spec. apply SFsub_not_nan.
    + apply in_range_finite. exact Hr.
    + apply is_nan_spec. exact Hnan.
Qed.

(** X12. A negative [turn_direction_th] stops the polygon at its first
    corner: while two sides or more are still to drive, no run of poses with
    a heading (not NaN) adds to the counter, since at the end of the side
    every update orders the turn in place again. *)
Theorem negative_threshold_never_completes (fuel : nat) (msgs : list Pose)
    (self : TurtlesimController) :
  (1 <= fuel)%nat ->
  0 <= _turn_count self < num_of_sides (_param self) - 1 ->
  num_of_sides (_param self) < 2 ^ 53 ->
  (turn_direction_th (_param self) <? 0)%float = true ->
  Forall (fun msg => is_nan (theta msg) = false) msgs ->
  _turn_count (process hypot fuel msgs self) = _turn_count self.
Proof.
  intros Hfuel Htc Hn Hth Hall. revert self Htc Hn Hth.
  induction Hall as [ | msg msgs Hnan Hrest IH]; intros self Htc Hn Hth.
  - reflexivity.
  - cbn [process].
    assert (Hstep : _turn_count (snd (_pose_callback hypot fuel msg self)) = _turn_count self).
    { destruct (distance hypot (reference_pose self msg) msg
                <? length_of_side (_param self))%float eqn:Hd.
      - rewrite (callback_straight hypot fuel msg self) by (try apply Z.ltb_lt; lia || assumption).
        reflexivity.
      - rewrite (negative_threshold_turns fuel msg self Hfuel Htc Hn Hth Hnan Hd).
        reflexivity. }
    destruct (callback_cases hypot fuel msg self) as (Hp & _). cbv zeta in Hp.
    rewrite IH; rewrite ?Hp, ?Hstep; auto.
Qed.

(** X13. The turn can end: at the end of a side, a pose whose heading is the
    target direction itself completes the corner, for every threshold that
    is not negative: the update returns normally, adds exactly 1 to the
    counter, clears the reference pose and publishes one command, the
    [Twist] whose six fields are zero. *)
Theorem heading_on_target_completes (fuel : nat) (msg : Pose)
    (self : TurtlesimController) :
  (1 <= fuel)%nat ->
  0 <= _turn_count self < num_of_sides (_param self) ->
  num_of_sides (_param self) < 2 ^ 53 ->
  (turn_direction_th (_param self) <? 0)%float = false ->
  (distance hypot (reference_pose self msg) msg
   <? length_of_side (_param self))%float = false ->
  target_direction fuel (num_of_sides (_param self)) (_turn_count self)
  = Ok (theta msg) ->
  let self' := snd (_pose_callback hypot fuel msg self) in
  _pose_callback hypot fuel msg self
  = (Ok tt, push_cmd_vel (VelocityCommand 0 0)
              (set_prev_turn_pose None
                 (set_turn_count (_turn_count self + 1)
                    (set_pose (Some msg) self)))) /\
  fst (_pose_callback hypot fuel msg self) = Ok tt /\
  _cmd_vel_pub self'
  = _cmd_vel_pub self ++ [mkTwist (mkVector3 0 0 0) (mkVector3 0 0 0)] /\
  _turn_count self' = _turn_count self + 1 /\
  _prev_turn_pose self' = None /\
  pose (_turtle self') = Some msg /\
  _param self' = _param self.
Proof.
  intros Hfuel Htc Hn Hth Hd Hon. cbv zeta.
  rewrite (callback_corner hypot fuel msg self) by (try apply Z.ltb_lt; lia || assumption).
  destruct (target_direction_total fuel (num_of_sides (_param self)) (_turn_count self)
              Hfuel Htc Hn) as (fn & fk & t & _ & _ & _ & Ht & Hr).
  rewrite Hon in *. injection Ht as <-.
  rewrite (sub_diag_in_range _ Hr).
  replace (abs 0) with 0%float by reflexivity. rewrite Hth.
  cbn [andb fst snd]. repeat split.
Qed.

End Corners.

(** The rounding step on a long mantissa gives a valid number of the sign
    asked for, or the infinity of that sign. *)
Lemma binary_round_aux_finite_or_inf (s : bool) (m : positive) (e : Z) (l : location) :
  53 <= Zpos (digits2_pos m) -> -1074 <= e ->
  binary_round_aux prec emax s (Zpos m) e l = S754_infinity s \/
  exists m' e',
    binary_round_aux prec emax s (Zpos m) e l = S754_finite s m' e' /\
    bounded prec emax m' e' = true.
Proof.
  intros Hd He.
  destruct (shr_fexp_m m e l Hd He) as (r & Er & Hr).
  pose proof (div_pow2_digits m Hd) as Hq.
  set (n := Zpos (digits2_pos m) - 53) in *.
  assert (Hn : 0 <= n) by lia.
  unfold binary_round_aux. rewrite Er.
  set (m2 := round_nearest_even (shr_m r) (loc_of_shr_record r)).
  assert (Hm2 : shr_m r <= m2 <= shr_m r + 1).
  { destruct (round_nearest_even_cases (shr_m r) (loc_of_shr_record r)); subst m2; lia. }
  rewrite <- Hr in Hq.
  destruct (Z.eq_dec m2 (2 ^ 53)) as [E53 | N53].
  - rewrite E53. change (2 ^ 53) with (Zpos (2 ^ 53)%positive).
    unfold shr_fexp. cbn [Zdigits2].
    change (Zpos (digits2_pos (2 ^ 53))) with 54.
    rewrite fexp_normal by lia.
    replace (54 + (e + n) - 53 - (e + n)) with 1 by lia.
    cbn [shr shr_record_of_loc iter_pos shr_1 shr_m].
    destruct (e + n + 1 <=? emax - prec) eqn:Hle; [right | left; reflexivity].
    exists (2 ^ 52)%positive, (e + n + 1). split; [reflexivity | ].
    apply bounded_normal; [reflexivity | ].
    apply Z.leb_le in Hle. unfold emax, prec in Hle. lia.
  - assert (Hm2' : 2 ^ 52 <= m2 < 2 ^ 53) by lia.
    destruct m2 as [ | p2 | p2] eqn:Em2; try lia.
    assert (Hd2 : Zpos (digits2_pos p2) = 53) by (apply digits2_pos_unique; exact Hm2').
    unfold shr_fexp. cbn [Zdigits2]. rewrite Hd2.
    rewrite fexp_normal by lia.
    replace (53 + (e + n) - 53 - (e + n)) with 0 by lia.
    cbn [shr shr_record_of_loc shr_m].
    destruct (e + n <=? emax - prec) eqn:Hle; [right | left; reflexivity].
    exists p2, (e + n). split; [reflexivity | ].
    apply bounded_normal; [exact Hd2 | ].
    apply Z.leb_le in Hle. unfold emax, prec in Hle. lia.
Qed.

(** [float(n)] for a positive [n]: a number that is not zero, or
    [OverflowError]. *)
Lemma float_of_int_positive (n : Z) :
  1 <= n ->
  float_of_int n = Raise OverflowError \/
  exists b : float, float_of_int n = Ok b /\ is_zero b = false.
Proof.
  intros Hn.
  destruct (Z.ltb_spec n (2 ^ 53)) as [Hsmall | Hbig].
  - right. destruct (float_of_int_exact n ltac:(lia)) as (m & u & E & Hb & _).
    eexists. split; [exact E | ]. apply is_zero_finite. exact Hb.
  - destruct n as [ | p | p]; try lia.
    pose proof (digits_ge p 53 ltac:(lia) Hbig) as Hd.
    unfold float_of_int. cbn [binary_normalize]. unfold binary_round.
    rewrite fexp_normal by lia.
    unfold shl_align.
    destruct (Zpos (digits2_pos p) + 0 - 53 - 0) as [ | q | q] eqn:Eq; try lia.
    destruct (binary_round_aux_finite_or_inf false p 0 loc_Exact ltac:(lia) ltac:(lia))
      as [-> | (m' & e' & -> & Hb)].
    + left. reflexivity.
    + right. eexists. split; [reflexivity | ]. apply is_zero_finite. exact Hb.
Qed.

Section Exceptions.

Variable hypot : float -> float -> float.

(** X14. The one exception an update can raise is [OverflowError], and it
    takes a side count of [2^53] or more: in a state whose counter is not
    negative, an update returns normally, or raises [OverflowError] from the
    conversion of an [int] in [_calc_target_direction], or its loop runs out
    of fuel; it never divides by zero and never finds a pose missing.  For
    a side count below [2^53] and fuel for one turn it returns normally. *)
Theorem overflow_is_the_only_exception (fuel : nat) (msg : Pose)
    (self : TurtlesimController) :
  0 <= _turn_count self ->
  (fst (_pose_callback hypot fuel msg self) = Ok tt \/
   fst (_pose_callback hypot fuel msg self) = Raise OverflowError \/
   fst (_pose_callback hypot fuel msg self) = OutOfFuel) /\
  ((1 <= fuel)%nat -> num_of_sides (_param self) < 2 ^ 53 ->
   fst (_pose_callback hypot fuel msg self) = Ok tt).
Proof.
  intros Htc. split.
  - destruct (_turn_count self <? num_of_sides (_param self)) eqn:Hmove.
    + destruct (distance hypot (reference_pose self msg) msg
                <? length_of_side (_param self))%float eqn:Hd.
      * rewrite (callback_straight hypot fuel msg self Hmove Hd). auto.
      * rewrite (callback_corner hypot fuel msg self Hmove Hd).
        apply Z.ltb_lt in Hmove.
        unfold target_direction, truediv_int, mul_int, truediv.
        destruct (float_of_int_positive (num_of_sides (_param self)) ltac:(lia))
          as [-> | (b & -> & ->)]; [auto | ].
        destruct (float_of_int_positive (_turn_count self + 1) ltac:(lia))
          as [-> | (k & -> & _)]; [auto | ].
        destruct (while_pi_lt fuel (2.0 * math_pi / b * k)%float) as [t | e | ] eqn:Ew.
        -- destruct ((turn_direction_th (_param self) <? abs (t - theta msg))%float
                     && (_turn_count self <? num_of_sides (_param self) - 1)); auto.
        -- exfalso. clear - Ew. revert Ew. generalize (2.0 * math_pi / b * k)%float.
           induction fuel as [ | fuel IH]; intros t0; cbn [while_pi_lt];
             destruct (math_pi <? t0)%float; try discriminate. apply IH.
        -- auto.
    + rewrite (callback_terminal hypot fuel msg self Hmove). auto.
  - intros Hfuel Hn.
    destruct (callback_total hypot fuel msg self Hfuel Htc Hn) as (self' & cmd & -> & _).
    reflexivity.
Qed.

End Exceptions.

Lemma is_nan_true (a : float) : is_nan a = true -> Prim2SF a = S754_nan.
Proof.
  unfold is_nan. rewrite eqb_spec. unfold SFeqb.
  destruct (Prim2SF a) as [s | s | | s m e]; cbn [SFcompare]; try discriminate.
  - destruct s; discriminate.
  - reflexivity.
  - rewrite Z.compare_refl, Pos.compare_cont_refl. destruct s; discriminate.
Qed.

(** Nothing is below the distance to a heading that is NaN. *)
Lemma not_below_nan_error (th t a : float) :
  is_nan a = true -> (th <? abs (t - a))%float = false.
Proof.
  intros Ha. rewrite ltb_spec, abs_spec, sub_spec, (is_nan_true a Ha).
  unfold SF64sub, SFsub, SFltb.
  destruct (Prim2SF t) as [s | s | | s m e]; cbn [SFabs];
    destruct (Prim2SF th) as [s' | s' | | s' m' e']; reflexivity.
Qed.

Section Headings.

Variable hypot : float -> float -> float.

(** X15. A heading that is NaN passes for the target direction: at the end
    of a side, a pose whose [theta] is NaN completes the corner, at every
    corner and for every threshold: the update returns normally, adds
    exactly 1 to the counter, clears the reference pose and publishes one
    command, the [Twist] whose six fields are zero. *)
Theorem nan_heading_completes (fuel : nat) (msg : Pose)
    (self : TurtlesimController) :
  (1 <= fuel)%nat ->
  0 <= _turn_count self < num_of_sides (_param self) ->
  num_of_sides (_param self) < 2 ^ 53 ->
  is_nan (theta msg) = true ->
  (distance hypot (reference_pose self msg) msg
   <? length_of_side (_param self))%float = false ->
  let self' := snd (_pose_callback hypot fuel msg self) in
  _pose_callback hypot fuel msg self
  = (Ok tt, push_cmd_vel (VelocityCommand 0 0)
              (set_prev_turn_pose None
                 (set_turn_count (_turn_count self + 1)
                    (set_pose (Some msg) self)))) /\
  fst (_pose_callback hypot fuel msg self) = Ok tt /\
  _cmd_vel_pub self'
  = _cmd_vel_pub self ++ [mkTwist (mkVector3 0 0 0) (mkVector3 0 0 0)] /\
  _turn_count self' = _turn_count self + 1 /\
  _prev_turn_pose self' = None /\
  pose (_turtle self') = Some msg /\
  _param self' = _param self.
Proof.
  intros Hfuel Htc Hn Hnan Hd. cbv zeta.
  rewrite (callback_corner hypot fuel msg self) by (try apply Z.ltb_lt; lia || assumption).
  destruct (target_direction_total fuel (num_of_sides (_param self)) (_turn_count self)
              Hfuel Htc Hn) as (fn & fk & t & _ & _ & _ & -> & _).
  rewrite (not_below_nan_error _ t _ Hnan).
  cbn [andb fst snd]. repeat split.
Qed.

End Headings.

(** ** The further properties on examples *)

(** The ten poses of the tour give ten commands. *)
Lemma one_command_per_pose_witness :
  exists cmds : list Twist,
    _cmd_vel_pub (process hypot_sqrt 1 tour triangle) = _cmd_vel_pub triangle ++ cmds /\
    length cmds = length tour /\
    Forall (command_of triangle) cmds.
Proof.
  apply (one_command_per_pose hypot_sqrt 1 tour triangle).
  - lia.
  - cbn. lia.
  - cbn. lia.
Defined.

(** At the end of the first side of the huge polygon the conversion of the
    side count fails. *)
Lemma failed_update_publishes_nothing_witness :
  fst (_pose_callback hypot_sqrt 1 (pose_at 1 0 0) huge_polygon) = Raise OverflowError /\
  _cmd_vel_pub (snd (_pose_callback hypot_sqrt 1 (pose_at 1 0 0) huge_polygon)) = [] /\
  _turn_count (snd (_pose_callback hypot_sqrt 1 (pose_at 1 0 0) huge_polygon)) = 0.
Proof.
  split; [vm_compute; reflexivity | ].
  destruct (failed_update_publishes_nothing hypot_sqrt 1 (pose_at 1 0 0) huge_polygon)
    as (H1 & H2 & _).
  - vm_compute. discriminate.
  - split; [exact H1 | exact H2].
Defined.

(** The last corner of the triangle. *)
Lemma counter_advances_with_a_stop_witness :
  let self' := snd (_pose_callback hypot_sqrt 1 (pose_at 1 0 1.5) (on_side 2)) in
  _turn_count self' = 3 /\
  _cmd_vel_pub self' = _cmd_vel_pub (on_side 2) ++ [VelocityCommand 0 0] /\
  _prev_turn_pose self' = None.
Proof.
  cbv zeta.
  destruct (counter_advances_with_a_stop hypot_sqrt 1 (pose_at 1 0 1.5) (on_side 2))
    as (_ & H1 & H2 & H3 & _).
  - vm_compute. discriminate.
  - split; [exact H1 | ]. split; [exact H2 | exact H3].
Defined.

(** The turtle at the first corner, not yet turning. *)
Lemma same_pose_same_answer_witness :
  let self' := snd (_pose_callback hypot_sqrt 1 (pose_at 1 0 0) (on_side 0)) in
  fst (_pose_callback hypot_sqrt 1 (pose_at 1 0 0) self')
  = fst (_pose_callback hypot_sqrt 1 (pose_at 1 0 0) (on_side 0)) /\
  _turn_count (snd (_pose_callback hypot_sqrt 1 (pose_at 1 0 0) self')) = _turn_count self'.
Proof.
  cbv zeta.
  destruct (same_pose_same_answer hypot_sqrt 1 (pose_at 1 0 0) (on_side 0))
    as (H1 & _ & H2 & _).
  - vm_compute. reflexivity.
  - split; [exact H1 | exact H2].
Defined.

Lemma reported_velocities_are_ignored_witness :
  _cmd_vel_pub
    (process hypot_sqrt 1
       [turtlesim_msg.mkPose 0 0 0 0 0; turtlesim_msg.mkPose 1 0 0 0 0] triangle)
  = _cmd_vel_pub
      (process hypot_sqrt 1
         [turtlesim_msg.mkPose 0 0 0 0.5 0; turtlesim_msg.mkPose 1 0 0 0 1.5] triangle).
Proof.
  apply (reported_velocities_are_ignored hypot_sqrt 1
           [turtlesim_msg.mkPose 0 0 0 0 0; turtlesim_msg.mkPose 1 0 0 0 0]
           [turtlesim_msg.mkPose 0 0 0 0.5 0; turtlesim_msg.mkPose 1 0 0 0 1.5] triangle).
  repeat constructor.
Defined.

(** The tour of ten poses ends on the counter 3. *)
Lemma two_poses_for_a_side_witness :
  2 * (_turn_count (process hypot_sqrt 1 tour triangle) - _turn_count triangle)
  <= Z.of_nat (length tour).
Proof.
  apply (two_poses_for_a_side hypot_sqrt 1 tour triangle).
  - repeat constructor; vm_compute; reflexivity.
  - reflexivity.
  - vm_compute. reflexivity.
  - reflexivity.
Defined.

(** The first pose of the run. *)
Lemma first_pose_starts_the_side_witness :
  let self' := snd (_pose_callback hypot_sqrt 1 (pose_at 0 0 0) triangle) in
  fst (_pose_callback hypot_sqrt 1 (pose_at 0 0 0) triangle) = Ok tt /\
  (exists cmd : Twist,
      _cmd_vel_pub self' = _cmd_vel_pub triangle ++ [cmd] /\
      linear cmd = mkVector3 0.5 0 0 /\
      angular cmd = mkVector3 0 0 0) /\
  _prev_turn_pose self' = Some (pose_at 0 0 0) /\
  _turn_count self' = 0.
Proof.
  cbv zeta.
  destruct (first_pose_starts_the_side hypot_sqrt 1 (pose_at 0 0 0) triangle)
    as (_ & H1 & H2 & H3 & _ & H4 & _).
  - reflexivity.
  - cbn. lia.
  - split; vm_compute; reflexivity.
  - reflexivity.
  - vm_compute. reflexivity.
  - split; [exact H1 | ]. split; [exact H2 | ]. split; [exact H3 | exact H4].
Defined.

(** Turned onto the target or not, the first corner is never complete. *)
Lemma negative_threshold_never_completes_witness :
  _turn_count
    (process hypot_sqrt 1
       [pose_at 1 0 0; pose_at 1 0 heading_1; pose_at 1 0 heading_1] never_satisfied)
  = 0.
Proof.
  apply (negative_threshold_never_completes hypot_sqrt 1
           [pose_at 1 0 0; pose_at 1 0 heading_1; pose_at 1 0 heading_1] never_satisfied).
  - lia.
  - cbn. lia.
  - cbn. lia.
  - vm_compute. reflexivity.
  - repeat constructor.
Defined.

(** The first corner of the triangle, with the heading on [2 pi / 3]. *)
Lemma heading_on_target_completes_witness :
  let self' := snd (_pose_callback hypot_sqrt 1 (pose_at 1 0 heading_1) (on_side 0)) in
  fst (_pose_callback hypot_sqrt 1 (pose_at 1 0 heading_1) (on_side 0)) = Ok tt /\
  _cmd_vel_pub self'
  = _cmd_vel_pub (on_side 0) ++ [mkTwist (mkVector3 0 0 0) (mkVector3 0 0 0)] /\
  _turn_count self' = 1 /\
  _prev_turn_pose self' = None.
Proof.
  cbv zeta.
  destruct (heading_on_target_completes hypot_sqrt 1 (pose_at 1 0 heading_1) (on_side 0))
    as (_ & H1 & H2 & H3 & H4 & _).
  - lia.
  - cbn. lia.
  - cbn. lia.
  - vm_compute. reflexivity.
  - vm_compute. reflexivity.
  - vm_compute. reflexivity.
  - split; [exact H1 | ]. split; [exact H2 | ]. split; [exact H3 | exact H4].
Defined.

Lemma overflow_is_the_only_exception_witness :
  fst (_pose_callback hypot_sqrt 1 (pose_at 1 0 0) huge_polygon) = Ok tt \/
  fst (_pose_callback hypot_sqrt 1 (pose_at 1 0 0) huge_polygon) = Raise OverflowError \/
  fst (_pose_callback hypot_sqrt 1 (pose_at 1 0 0) huge_polygon) = OutOfFuel.
Proof.
  destruct (overflow_is_the_only_exception hypot_sqrt 1 (pose_at 1 0 0) huge_polygon)
    as [H _].
  - cbn. lia.
  - exact H.
Defined.

(** The first corner of the triangle, with a heading that is NaN. *)
Lemma nan_heading_completes_witness :
  let self' := snd (_pose_callback hypot_sqrt 1 (pose_at 1 0 nan) (on_side 0)) in
  fst (_pose_callback hypot_sqrt 1 (pose_at 1 0 nan) (on_side 0)) = Ok tt /\
  _cmd_vel_pub self'
  = _cmd_vel_pub (on_side 0) ++ [mkTwist (mkVector3 0 0 0) (mkVector3 0 0 0)] /\
  _turn_count self' = 1 /\
  _prev_turn_pose self' = None.
Proof.
  cbv zeta.
  destruct (nan_heading_completes hypot_sqrt 1 (pose_at 1 0 nan) (on_side 0))
    as (_ & H1 & H2 & H3 & H4 & _).
  - lia.
  - cbn. lia.
  - cbn. lia.
  - vm_compute. reflexivity.
  - vm_compute. reflexivity.
  - split; [exact H1 | ]. split; [exact H2 | ]. split; [exact H3 | exact H4].
Defined.
